(** * CyberpunkRAG: the retrieval path of [search_bot.py]

    A shallow embedding of [CyberpunkBot] (intent classification, query
    entity extraction, corpus loading, [search_and_rank], [ask_rag]) and
    the properties of its retrieval-and-ranking step.

    Modelling conventions.
    - A Python [str] is the [string] of its UTF-8 bytes; [len] counts
      code points ([py_len]).  [lower], [is_space] and [is_word] are the
      case mapping and the character classes of Python on ASCII text, and
      the theorems that rest on them for more than the keywords of the
      source are stated for ASCII text.
    - Distances and scores are exact rationals ([Q]); rounding of the
      float32/float64 values is outside the model.
    - A Python exception is a value of [PyExc] returned through [Res].
    - The dicts [self.indexes] and [self.metadata] are [gmap string _]. *)

From Stdlib Require Import Ascii QArith.
From stdpp Require Import gmap strings list fin_maps sorting.

(** ** Python strings *)

Module PyStr.

(** [c.lower()] on one character: 'A'..'Z' are shifted by 32. *)
Definition lower_ascii (c : ascii) : ascii :=
  let n := nat_of_ascii c in
  if (65 <=? n)%nat && (n <=? 90)%nat then ascii_of_nat (n + 32) else c.

(** [q.lower()]. *)
Fixpoint lower (q : string) : string :=
  match q with
  | EmptyString => EmptyString
  | String c q' => String (lower_ascii c) (lower q')
  end.

(** [q.startswith(w)]. *)
Fixpoint startswith (w q : string) : bool :=
  match w, q with
  | EmptyString, _ => true
  | String _ _, EmptyString => false
  | String a w', String b q' => bool_decide (a = b) && startswith w' q'
  end.

(** [w in q]: [w] occurs in [q] at some offset. *)
Fixpoint contains (w q : string) : bool :=
  startswith w q ||
  match q with
  | EmptyString => false
  | String _ q' => contains w q'
  end.

(** [any(w in q for w in ws)]. *)
Definition any_in (ws : list string) (q : string) : bool :=
  existsb (fun w => contains w q) ws.

(** The declarative reading of [w in q]. *)
Definition occurs_in (w q : string) : Prop :=
  exists a b : string, q = a +:+ w +:+ b.

(** A string made of characters that [lower] leaves alone. *)
Definition is_lower (w : string) : Prop := lower w = w.

End PyStr.

(** ** Intent classification *)

Definition timeline_keywords : list string := ["when"; "year"; "timeline"].
Definition person_keywords : list string := ["who"; "person"].
Definition location_keywords : list string := ["where"; "location"].

(** [CyberpunkBot.classify_intent] (it does not read [self]). *)
Definition classify_intent (q : string) : string :=
  let q := PyStr.lower q in
  if PyStr.any_in timeline_keywords q then "timeline"
  else if PyStr.any_in person_keywords q then "person"
  else if PyStr.any_in location_keywords q then "location"
  else "general".

(** Some keyword of [ws] occurs in the lowercased query. *)
Definition mentions (ws : list string) (q : string) : Prop :=
  exists w, In w ws /\ PyStr.occurs_in w (PyStr.lower q).

(** ** Python exceptions and the result of a call *)

Inductive PyExc : Type := KeyError | IndexError.

Inductive Res (A : Type) : Type :=
| Ok (a : A)
| Raise (e : PyExc).
Arguments Ok {A} a.
Arguments Raise {A} e.

#[global] Instance Res_ret : MRet Res := fun _ a => Ok a.
#[global] Instance Res_bind : MBind Res := fun _ _ f m =>
  match m with
  | Ok a => f a
  | Raise e => Raise e
  end.

(** The value of a call seen through [f]; an exception passes through. *)
Definition res_map {A B : Type} (f : A -> B) (r : Res A) : Res B :=
  match r with
  | Ok a => Ok (f a)
  | Raise e => Raise e
  end.

(** [d[k]] on a dict: [KeyError] when the key is missing. *)
Definition dict_getitem {V : Type} (d : gmap string V) (k : string) : Res V :=
  match d !! k with
  | Some v => Ok v
  | None => Raise KeyError
  end.

(** [l[i]] on a sequence: a negative [i] counts from the end, and an
    index outside [-len, len) raises [IndexError]. *)
Definition py_getitem {A : Type} (l : list A) (i : Z) : Res A :=
  let n := Z.of_nat (length l) in
  let j := if (i <? 0)%Z then (n + i)%Z else i in
  if (0 <=? j)%Z && (j <? n)%Z then
    match l !! Z.to_nat j with
    | Some x => Ok x
    | None => Raise IndexError
    end
  else Raise IndexError.

(** [for i in rng: s = body(s, i)], stopping at the first exception. *)
Fixpoint for_each {S : Type} (body : S -> nat -> Res S) (rng : list nat)
    (s : S) : Res S :=
  match rng with
  | [] => Ok s
  | i :: rng' => s' ← body s i; for_each body rng' s'
  end.

(** ** Stable sort by a numeric key ([list.sort(key=...)]) *)

Section SortBy.
Context {A : Type} (key : A -> Q).

(** [x] goes in front of the first element whose key is not smaller,
    so that it stays ahead of the equal keys that came after it. *)
Fixpoint insert_by (x : A) (l : list A) : list A :=
  match l with
  | [] => [x]
  | y :: l' =>
      if Qle_bool (key x) (key y) then x :: y :: l'
      else y :: insert_by x l'
  end.

Definition sort_by (l : list A) : list A := foldr insert_by [] l.

(** Ascending order of the keys. *)
Definition key_le (a b : A) : Prop := (key a <= key b)%Q.

(** The elements of [l] whose key equals [s], in the order of [l]. *)
Definition with_key (s : Q) (l : list A) : list A :=
  List.filter (fun x => Qeq_bool (key x) s) l.

End SortBy.

(** ** The vector index ([faiss.IndexFlatL2])

    FAISS is a library the bot calls; the model below follows the
    contract of its flat L2 index: exact search by squared Euclidean
    distance, nearest first, ties in insertion order, and [-1] in the
    slots for which no vector is left. *)

Definition Vec : Type := list Q.

(** The index built by [build_and_save_index]: the embeddings handed to
    [index.add], in insertion order. *)
Record IndexFlatL2 : Type := { xb : list Vec }.

(** Squared Euclidean distance. *)
Definition l2sqr (x y : Vec) : Q :=
  foldr Qplus 0%Q (zip_with (fun a b => ((a - b) * (a - b))%Q) x y).

(** The distance FAISS writes into a slot that has no neighbour. *)
Definition FLT_MAX : Q := inject_Z ((2 ^ 24 - 1) * 2 ^ 104).

(** Every stored vector with its distance to [q] and its position. *)
Definition scored (ix : IndexFlatL2) (q : Vec) : list (Q * Z) :=
  imap (fun i x => (l2sqr q x, Z.of_nat i)) (xb ix).

(** The nearest neighbours FAISS finds: the stored vectors, nearest
    first, cut at [k]. *)
Definition nearest (ix : IndexFlatL2) (q : Vec) (k : nat) : list (Q * Z) :=
  take k (sort_by fst (scored ix q)).

(** [index.search(q_vec, k)] for a single query row: [k] distances and
    [k] positions, nearest first; slots past the size of the index hold
    position [-1]. *)
Definition faiss_search (ix : IndexFlatL2) (q : Vec) (k : nat)
    : list Q * list Z :=
  let best := nearest ix q k in
  let slots := best ++ replicate (k - length best) (FLT_MAX, (-1)%Z) in
  (fst <$> slots, snd <$> slots).

(** ** The bot *)

Definition MODEL_NAME : string := "all-mpnet-base-v2".
Definition TOP_K_RETRIEVAL : nat := 7.
Definition BOOST_VALUE : Q := 0.2.
Definition NER_BOOST_PER_MATCH : Q := 0.05.

(** One entry of [metadata["documents"]]. *)
Record DocMeta : Type := { title : string; summary : string }.

(** The pickled metadata of a corpus. *)
Record Metadata : Type := { ids : list string; documents : list DocMeta }.

(** [Document(page_content=..., metadata={"title": ..., "score": ...})]. *)
Record Document : Type :=
  { page_content : string; md_title : string; md_score : Q }.

Record CyberpunkBot : Type := {
  model : string -> Vec;                    (* encode one query *)
  nlp : option (string -> list string);     (* texts of [doc.ents] *)
  indexes : gmap string IndexFlatL2;
  metadata : gmap string Metadata;
  type_map : gmap string string;
  ner_entities : gmap string (gset string);
}.

(** What [__init__] finds on disk; [None] stands for a call that raises. *)
Record Env : Type := {
  sentence_transformer : string -> Vec;
  spacy_load : option (string -> list string);
  read_index : string -> option IndexFlatL2;
  load_metadata : string -> option Metadata;
  load_type_map : option (gmap string string);
  load_ner : option (gmap string (list string));
}.

Definition corpus_names : list string := ["lore"; "timeline"; "slang"].

(** One round of the loading loop: the index is stored as soon as it is
    read, the metadata after it, and an exception ends the round. *)
Definition load_corpus (env : Env)
    (st : gmap string IndexFlatL2 * gmap string Metadata) (name : string)
    : gmap string IndexFlatL2 * gmap string Metadata :=
  match read_index env name with
  | None => st
  | Some ix =>
      let indexes' := <[name := ix]> (st.1) in
      match load_metadata env name with
      | None => (indexes', st.2)
      | Some m => (indexes', <[name := m]> (st.2))
      end
  end.

(** [{k: set(e["text"].lower() for e in v) for k, v in raw.items()}]. *)
Definition lower_entities (raw : gmap string (list string))
    : gmap string (gset string) :=
  (fun v : list string => list_to_set (PyStr.lower <$> v)) <$> raw.

(** [CyberpunkBot.__init__]. *)
Definition init (env : Env) : CyberpunkBot :=
  let st := foldl (load_corpus env) (∅, ∅) corpus_names in
  {| model := sentence_transformer env;
     nlp := spacy_load env;
     indexes := st.1;
     metadata := st.2;
     type_map := default ∅ (load_type_map env);
     ner_entities := default ∅ (lower_entities <$> load_ner env) |}.

(** [CyberpunkBot.extract_query_entities]. *)
Definition extract_query_entities (self : CyberpunkBot) (q : string)
    : gset string :=
  match nlp self with
  | None => ∅
  | Some run => list_to_set (PyStr.lower <$> run q)
  end.

(** The body of the loop of [search_and_rank] for slot [i]. *)
Definition rank_slot (self : CyberpunkBot) (index_name : string)
    (distances : list Q) (indices : list Z)
    (results : list Document) (i : nat) : Res (list Document) :=
  idx ← py_getitem indices (Z.of_nat i);
  if bool_decide (idx = (-1)%Z) then Ok results
  else
    store ← dict_getitem (metadata self) index_name;
    meta ← py_getitem (documents store) idx;
    score ← py_getitem distances (Z.of_nat i);
    Ok (results ++ [ {| page_content := summary meta;
                        md_title := title meta;
                        md_score := score |} ]).

(** The candidates collected by the loop, before sorting. *)
Definition collect (self : CyberpunkBot) (index_name : string)
    (distances : list Q) (indices : list Z) : Res (list Document) :=
  for_each (rank_slot self index_name distances indices)
    (seq 0 TOP_K_RETRIEVAL) [].

(** The vector-search step of [search_and_rank]: encode the query, search
    the index, and run the loop over the slots. *)
Definition retrieve (self : CyberpunkBot) (query index_name : string)
    (ix : IndexFlatL2) : Res (list Document) :=
  let q_vec := model self query in
  let '(distances, indices) := faiss_search ix q_vec TOP_K_RETRIEVAL in
  collect self index_name distances indices.

(** [CyberpunkBot.search_and_rank]. *)
Definition search_and_rank (self : CyberpunkBot) (query index_name : string)
    : Res (list Document) :=
  match indexes self !! index_name with
  | None => Ok []
  | Some ix =>
      results ← retrieve self query index_name ix;
      Ok (take 4 (sort_by md_score results))
  end.

(** The candidates of a query in vector-search rank order: what the loop
    has collected when the sort starts (nothing for a missing index). *)
Definition candidates (self : CyberpunkBot) (query index_name : string)
    : Res (list Document) :=
  match indexes self !! index_name with
  | None => Ok []
  | Some ix => retrieve self query index_name ix
  end.

(** A corpus the bot can serve: its index is loaded together with one
    stored record per vector. *)
Definition available (self : CyberpunkBot) (index_name : string)
    (ix : IndexFlatL2) (store : Metadata) : Prop :=
  indexes self !! index_name = Some ix /\
  metadata self !! index_name = Some store /\
  length (documents store) = length (xb ix).

(** What [ask_rag] hands back first: the refusal string, or the stream of
    the chain, recorded as the call that produces it. *)
Inductive Response : Type :=
| Refusal (msg : string)
| ChainStream (context : list Document) (input : string).

(** [CyberpunkBot.ask_rag] on the fields the retrieval reads, for a bot
    that has its chain ([initialize_bot] lets no other through);
    [Session.ask_rag] is the method with [self.rag_chain] looked at. *)
Definition ask_rag (self : CyberpunkBot) (query : string)
    : Res (Response * list string) :=
  docs ← search_and_rank self query "lore";
  match docs with
  | [] => Ok (Refusal "Got nothing on that, choomba.", [])
  | _ => Ok (ChainStream docs query, md_title <$> docs)
  end.

(** ** The loop over the slots, seen as a traversal *)

(** The slots that hold a neighbour. *)
Definition live (slots : list (Q * Z)) : list (Q * Z) :=
  List.filter (fun s => negb (bool_decide (s.2 = (-1)%Z))) slots.

(** The candidate built from one live slot. *)
Definition doc_at (store : Metadata) (slot : Q * Z) : Res Document :=
  meta ← py_getitem (documents store) (slot.2);
  Ok {| page_content := summary meta;
        md_title := title meta;
        md_score := slot.1 |}.

(** Left-to-right traversal that stops at the first exception. *)
Fixpoint traverse {A B : Type} (f : A -> Res B) (l : list A)
    : Res (list B) :=
  match l with
  | [] => Ok []
  | x :: l' => y ← f x; ys ← traverse f l'; Ok (y :: ys)
  end.

(** What the loop computes from the live slots: nothing is looked up
    when there is none, and the metadata of the corpus is needed as soon
    as there is one. *)
Definition gather (self : CyberpunkBot) (index_name : string)
    (ls : list (Q * Z)) : Res (list Document) :=
  match ls with
  | [] => Ok []
  | _ => store ← dict_getitem (metadata self) index_name;
         traverse (doc_at store) ls
  end.

(** The stored record a candidate was built from. *)
Definition record_of (d : Document) : DocMeta :=
  {| title := md_title d; summary := page_content d |}.

(** The record a slot points at, for a position inside the store. *)
Definition stored (store : Metadata) (slot : Q * Z) : option DocMeta :=
  documents store !! Z.to_nat (slot.2).

(** A candidate built from a slot: it carries the distance of the slot
    and the record at its position. *)
Definition built_from (store : Metadata) (slot : Q * Z) (c : Document)
    : Prop :=
  md_score c = slot.1 /\ stored store slot = Some (record_of c).

(** A position that points into a sequence of [n] elements. *)
Definition in_range (n : nat) (slot : Q * Z) : Prop :=
  (0 <= slot.2 < Z.of_nat n)%Z.


(** Ascending order of the scores. *)
Definition score_le : Document -> Document -> Prop := key_le md_score.

(** ** The ranking contract as the specification words it *)

Module Spec.

(** "Person intent matches a character type tag; Location matches a
    location tag; Timeline matches the timeline corpus itself; General
    matches nothing specially." *)
Definition type_match (intent index_name : string) (tag : option string)
    : bool :=
  if bool_decide (intent = "person") then
    bool_decide (tag = Some "character")
  else if bool_decide (intent = "location") then
    bool_decide (tag = Some "location")
  else if bool_decide (intent = "timeline") then
    bool_decide (index_name = "timeline")
  else false.

(** "size of the intersection between the query's entity set and the
    candidate document's precomputed entity set". *)
Definition entity_overlap (query_entities doc_entities : gset string)
    : nat :=
  size (query_entities ∩ doc_entities).

(** "final_score = raw_distance - (TYPE_BOOST if type_match else 0)
    - (ENTITY_BOOST_PER_MATCH * entity_overlap)". *)
Definition final_score (raw_distance : Q) (type_match : bool)
    (entity_overlap : nat) : Q :=
  (raw_distance - (if type_match then BOOST_VALUE else 0)
   - NER_BOOST_PER_MATCH * inject_Z (Z.of_nat entity_overlap))%Q.

(** The score the contract assigns to a candidate of the bot. *)
Definition boosted_score (self : CyberpunkBot) (query index_name : string)
    (d : Document) : Q :=
  final_score (md_score d)
    (type_match (classify_intent query) index_name
       (type_map self !! md_title d))
    (entity_overlap (extract_query_entities self query)
       (default ∅ (ner_entities self !! md_title d))).

(** "query -> Intent Classifier (select corpus/corpora)": a Timeline
    query goes to the timeline corpus, the others to the lore. *)
Definition selected_corpus (query : string) : string :=
  if bool_decide (classify_intent query = "timeline") then "timeline"
  else "lore".

(** "fail fast if either half of a pair is present without the other,
    or if they are not equal in length": what a loaded corpus looks
    like under that rule. *)
Definition load_invariant (self : CyberpunkBot) (name : string) : Prop :=
  (indexes self !! name = None /\ metadata self !! name = None) \/
  (exists ix m, indexes self !! name = Some ix /\
                metadata self !! name = Some m /\
                length (xb ix) = length (documents m)).

End Spec.

(** ** Sample data *)

Module Sample.

(** An encoder that sends every query to the origin. *)
Definition encode (q : string) : Vec := [0%Q; 0%Q].

Definition lore_index : IndexFlatL2 :=
  {| xb := [[0.6%Q; 0.2%Q]; [0.6%Q; 0.3%Q]] |}.

Definition lore_metadata : Metadata :=
  {| ids := ["Samurai"; "Johnny Silverhand"];
     documents :=
       [ {| title := "Samurai"; summary := "title: Samurai." |};
         {| title := "Johnny Silverhand";
            summary := "title: Johnny Silverhand." |} ] |}.

Definition timeline_index : IndexFlatL2 := {| xb := [[0.1%Q; 0%Q]] |}.

Definition timeline_metadata : Metadata :=
  {| ids := ["2021_0"];
     documents :=
       [ {| title := "Timeline Event 2021";
            summary := "Timeline Event: the fourth corporate war begins." |} ] |}.

Definition types : gmap string string :=
  {[ "Samurai" := "organization"; "Johnny Silverhand" := "character" ]}.

(** Both corpora on disk, no NER model. *)
Definition env : Env :=
  {| sentence_transformer := encode;
     spacy_load := None;
     read_index := fun name =>
       if bool_decide (name = "lore") then Some lore_index
       else if bool_decide (name = "timeline") then Some timeline_index
       else None;
     load_metadata := fun name =>
       if bool_decide (name = "lore") then Some lore_metadata
       else if bool_decide (name = "timeline") then Some timeline_metadata
       else None;
     load_type_map := Some types;
     load_ner := Some ∅ |}.

(** The lore index has two vectors for one record, and the metadata of
    the timeline cannot be read. *)
Definition damaged_env : Env :=
  {| sentence_transformer := encode;
     spacy_load := None;
     read_index := read_index env;
     load_metadata := fun name =>
       if bool_decide (name = "lore") then
         Some {| ids := ["Samurai"];
                 documents :=
                   [ {| title := "Samurai";
                        summary := "title: Samurai." |} ] |}
       else None;
     load_type_map := None;
     load_ner := None |}.

(** Nothing on disk. *)
Definition bare_env : Env :=
  {| sentence_transformer := encode;
     spacy_load := None;
     read_index := fun _ => None;
     load_metadata := fun _ => None;
     load_type_map := None;
     load_ner := None |}.

Definition who_query : string := "Who is Johnny Silverhand?".
Definition when_query : string :=
  "When did the Fourth Corporate War start?".

End Sample.

(** ** The chat loop of the page *)

Definition buffer_triggers : list ascii :=
  ["."; "!"; "?"; ","; ";"; ":"; " "]%char.

(** The text appended to what is shown while the answer is streamed: the
    literal of the source, which is seven bytes, the UTF-8 form of the
    three characters U+00E2, U+2013 and U+0152. *)
Definition cursor : string :=
  String "195" (String "162" (String "226" (String "128" (String "147"
    (String "197" (String "146" EmptyString)))))).

(** A byte that continues a character of more than one byte. *)
Definition is_continuation (c : ascii) : bool :=
  let n := nat_of_ascii c in (128 <=? n)%nat && (n <=? 191)%nat.


(** [len(s)]: the number of characters, one for every byte that does not
    continue another. *)
Fixpoint py_len (s : string) : nat :=
  match s with
  | EmptyString => 0
  | String c s' => if is_continuation c then py_len s' else S (py_len s')
  end.

(** [list(s)]: the characters of [s], each with all its bytes. *)
Fixpoint code_points (s : string) : list string :=
  match s with
  | EmptyString => []
  | String c s' =>
      let rest := code_points s' in
      match s' with
      | String d _ =>
          if is_continuation d then
            match rest with
            | p :: ps => String c p :: ps
            | [] => [String c EmptyString]
            end
          else String c EmptyString :: rest
      | EmptyString => String c EmptyString :: rest
      end
  end.

(** The last byte of [s].  The loop asks for [s[-1]] on a buffer that
    just received a non-empty chunk, and compares it with the triggers,
    which are ASCII: the last character is one of them exactly when the
    last byte is. *)
Fixpoint last_char (s : string) : option ascii :=
  match s with
  | EmptyString => None
  | String c s' =>
      match s' with
      | EmptyString => Some c
      | String _ _ => last_char s'
      end
  end.

(** [token_buffer[-1] in buffer_triggers or len(token_buffer) > 10]. *)
Definition should_flush (token_buffer : string) : bool :=
  match last_char token_buffer with
  | Some c => bool_decide (c ∈ buffer_triggers)
  | None => false
  end
  || (10 <? py_len token_buffer)%nat.

(** The variables of the streaming loop, and the texts handed to
    [message_placeholder.markdown] so far. *)
Record Stream : Type :=
  { full_response : string; token_buffer : string; frames : list string }.

Definition stream_start : Stream :=
  {| full_response := ""; token_buffer := ""; frames := [] |}.

(** The body of [for chunk in response_stream]. *)
Definition stream_step (st : Stream) (chunk : string) : Stream :=
  match chunk with
  | EmptyString => st
  | String _ _ =>
      let buf := token_buffer st +:+ chunk in
      if should_flush buf then
        let full := full_response st +:+ buf in
        {| full_response := full;
           token_buffer := "";
           frames := frames st ++ [full +:+ cursor] |}
      else
        {| full_response := full_response st;
           token_buffer := buf;
           frames := frames st |}
  end.

(** The loop, the final flush of the buffer and the last update of the
    placeholder, without the cursor. *)
Definition render (chunks : list string) : Stream :=
  let st := foldl stream_step stream_start chunks in
  let full :=
    match token_buffer st with
    | EmptyString => full_response st
    | String _ _ => full_response st +:+ token_buffer st
    end in
  {| full_response := full;
     token_buffer := token_buffer st;
     frames := frames st ++ [full] |}.

(** What iterating over the first component of [ask_rag] yields: the
    characters of the refusal, which is a [str], or the chunks of the
    stream of the chain, which the model leaves to [chain]. *)
Definition chunks_of (chain : list Document -> string -> list string)
    (r : Response) : list string :=
  match r with
  | Refusal msg => code_points msg
  | ChainStream context input => chain context input
  end.

(** One entry of [st.session_state.messages]; only the assistant has
    sources. *)
Record Message : Type :=
  { role : string; content : string; msg_sources : option (list string) }.

(** One run of the page on a prompt, for a bot that has its chain and a
    stream that is read to its end: the history after it, and the frames
    shown, or the exception of the retrieval that ends the run.  An empty
    prompt is no input.  [Session.chat_turn] below is the run with the
    chain that may be missing and the stream that may break. *)
Definition chat_turn (chain : list Document -> string -> list string)
    (bot : CyberpunkBot) (messages : list Message) (prompt : string)
    : list Message * Res (list string) :=
  match prompt with
  | EmptyString => (messages, Ok [])
  | String _ _ =>
      let messages :=
        messages ++ [ {| role := "user"; content := prompt;
                         msg_sources := None |} ] in
      match ask_rag bot prompt with
      | Raise e => (messages, Raise e)
      | Ok (response_stream, sources) =>
          let st := render (chunks_of chain response_stream) in
          (messages ++ [ {| role := "assistant";
                            content := full_response st;
                            msg_sources := Some sources |} ],
           Ok (frames st))
      end
  end.

(** [a] is an initial part of [s]. *)
Definition str_prefix (a s : string) : Prop := exists b, s = a +:+ b.

(** [b] shows all of [a] and something more. *)
Definition shows_less (a b : string) : Prop :=
  exists c, c <> EmptyString /\ b = a +:+ c.

(** [''.join(chunks)]. *)
Definition str_concat (chunks : list string) : string :=
  foldr String.append "" chunks.

(** ** Starting the bot *)

Definition OLLAMA_MODEL : string := "llama3".

(** The arguments [_init_llm] gives to [ChatOllama]. *)
Record LLM : Type := {
  llm_model : string;
  base_url : string;
  temperature : Q;
  num_predict : Z;
  keep_alive : Z;
}.

(** The chain [_init_chain] builds around the model; the prompt is a
    constant of the source and plays no part below. *)
Record Chain : Type := { chain_llm : LLM }.

(** The bot with the two fields the retrieval path does not read. *)
Record Oracle : Type := {
  core : CyberpunkBot;
  llm : option LLM;
  rag_chain : option Chain;
}.

(** The machine the page starts on: the files, whether the sentence
    encoder loads, and whether [ChatOllama] can be constructed. *)
Record Host : Type := {
  files : Env;
  encoder_loads : bool;
  ollama_constructs : bool;
}.

(** [CyberpunkBot._init_llm]. *)
Definition _init_llm (h : Host) : option LLM :=
  if ollama_constructs h then
    Some {| llm_model := OLLAMA_MODEL;
            base_url := "http://localhost:11434";
            temperature := 0.0;
            num_predict := 512;
            keep_alive := -1 |}
  else None.

(** [CyberpunkBot._init_chain]. *)
Definition _init_chain (llm : option LLM) : option Chain :=
  match llm with
  | None => None
  | Some m => Some {| chain_llm := m |}
  end.

(** [CyberpunkBot()] with all its fields; [None] when the constructor
    raises, which only the load of the encoder can make it do. *)
Definition new_oracle (h : Host) : option Oracle :=
  if encoder_loads h then
    let m := _init_llm h in
    Some {| core := init (files h); llm := m; rag_chain := _init_chain m |}
  else None.

(** [initialize_bot]: [None] for every start-up error. An index object
    and a metadata dict are true values whenever they are there. *)
Definition initialize_bot (h : Host) : option Oracle :=
  match new_oracle h with
  | None => None
  | Some bot =>
      if negb (bool_decide (is_Some (llm bot)))
         || negb (bool_decide (is_Some (rag_chain bot))) then None
      else if negb (bool_decide (is_Some (indexes (core bot) !! "lore")))
              || negb (bool_decide (is_Some (metadata (core bot) !! "lore")))
      then None
      else Some bot
  end.

(** ** A session of the page

    The methods of the bot and the script of the page as they run: on
    the objects that live from one run of the page to the next, with the
    exceptions that end a run. *)

Module Session.

(** What a run finds and leaves: the bot kept by [st.cache_resource]
    and [st.session_state.messages]. *)
Record World : Type := { oracle : Oracle; history : list Message }.

(** The exceptions of a run: those of the lookups, the [AttributeError]
    of a method called on [None], and what the stream of the chain
    raises while it is read (no server, a connection lost). *)
Inductive Exc : Type :=
| Lookup (e : PyExc)
| AttributeError
| StreamError.

Inductive Outcome (A : Type) : Type :=
| Value (a : A)
| Raised (e : Exc).
Arguments Value {A} a.
Arguments Raised {A} e.

(** A piece of the program: the world after it, and its value or the
    exception it ends with.  What was written before an exception
    stays written. *)
Definition Run (A : Type) : Type := World -> World * Outcome A.

Definition ret {A : Type} (a : A) : Run A := fun w => (w, Value a).

Definition bind {A B : Type} (m : Run A) (f : A -> Run B) : Run B :=
  fun w =>
    match m w with
    | (w', Value a) => f a w'
    | (w', Raised e) => (w', Raised e)
    end.

Definition raise {A : Type} (e : Exc) : Run A := fun w => (w, Raised e).

(** [self.field]. *)
Definition attr {A : Type} (field : Oracle -> A) : Run A :=
  fun w => (w, Value (field (oracle w))).

(** [st.session_state.messages.append(m)]. *)
Definition append (m : Message) : Run unit :=
  fun w => ({| oracle := oracle w; history := history w ++ [m] |}, Value tt).

Definition of_res {A : Type} (r : Res A) : Outcome A :=
  match r with
  | Ok a => Value a
  | Raise e => Raised (Lookup e)
  end.

(** An indexing or a lookup that may raise and writes nothing. *)
Definition lift {A : Type} (r : Res A) : Run A := fun w => (w, of_res r).

Local Notation "x <- m ;; k" := (bind m (fun x => k))
  (at level 100, m at next level, right associativity).

(** The body of the loop of [search_and_rank] for slot [i]. *)
Definition rank_slot (index_name : string) (distances : list Q)
    (indices : list Z) (results : list Document) (i : nat)
    : Run (list Document) :=
  idx <- lift (py_getitem indices (Z.of_nat i));;
  if bool_decide (idx = (-1)%Z) then ret results
  else
    self_metadata <- attr (fun self => metadata (core self));;
    store <- lift (dict_getitem self_metadata index_name);;
    meta <- lift (py_getitem (documents store) idx);;
    score <- lift (py_getitem distances (Z.of_nat i));;
    ret (results ++ [ {| page_content := summary meta;
                         md_title := title meta;
                         md_score := score |} ]).

(** [for i in rng: s = body(s, i)]. *)
Fixpoint for_each {S : Type} (body : S -> nat -> Run S) (rng : list nat)
    (s : S) : Run S :=
  match rng with
  | [] => ret s
  | i :: rng' => s' <- body s i;; for_each body rng' s'
  end.

(** [CyberpunkBot.search_and_rank]. *)
Definition search_and_rank (query index_name : string)
    : Run (list Document) :=
  self_indexes <- attr (fun self => indexes (core self));;
  match self_indexes !! index_name with
  | None => ret []
  | Some _ =>
      self_model <- attr (fun self => model (core self));;
      let q_vec := self_model query in
      self_indexes <- attr (fun self => indexes (core self));;
      ix <- lift (dict_getitem self_indexes index_name);;
      let '(distances, indices) := faiss_search ix q_vec TOP_K_RETRIEVAL in
      results <- for_each (rank_slot index_name distances indices)
                   (seq 0 TOP_K_RETRIEVAL) [];;
      ret (take 4 (sort_by md_score results))
  end.

(** [CyberpunkBot.ask_rag]: [self.rag_chain.stream] is looked up only
    when there are documents, and the stream it returns has not run
    yet. *)
Definition ask_rag (query : string) : Run (Response * list string) :=
  docs <- search_and_rank query "lore";;
  match docs with
  | [] => ret (Refusal "Got nothing on that, choomba.", [])
  | _ :: _ =>
      self_rag_chain <- attr rag_chain;;
      match self_rag_chain with
      | None => raise AttributeError
      | Some _ => ret (ChainStream docs query, md_title <$> docs)
      end
  end.

(** A stream as the loop of the page meets it: the chunks it yields,
    and whether it then raises instead of coming to its end. *)
Record Generator : Type := { yields : list string; breaks : bool }.

(** Iterating over the first component of [ask_rag]: the characters of
    the refusal, or the stream of the chain, left to [chain]. *)
Definition iterate (chain : list Document -> string -> Generator)
    (r : Response) : Generator :=
  match r with
  | Refusal msg => {| yields := code_points msg; breaks := false |}
  | ChainStream context input => chain context input
  end.

(** One run of the page on a prompt; its value is the list of the texts
    put on the page.  An empty prompt is no input.  When the stream
    raises, the run ends inside the loop: the frames of the chunks
    received were shown, and no message of the assistant is stored. *)
Definition chat_turn (chain : list Document -> string -> Generator)
    (prompt : string) : Run (list string) :=
  match prompt with
  | EmptyString => ret []
  | String _ _ =>
      _ <- append {| role := "user"; content := prompt;
                     msg_sources := None |};;
      answer <- ask_rag prompt;;
      let response_stream := iterate chain (answer.1) in
      let sources := answer.2 in
      if breaks response_stream then raise StreamError
      else
        let st := render (yields response_stream) in
        _ <- append {| role := "assistant";
                       content := full_response st;
                       msg_sources := Some sources |};;
        ret (frames st)
  end.

(** The world after the page has run on each of the prompts in turn. *)
Definition session (chain : list Document -> string -> Generator)
    (prompts : list string) (w : World) : World :=
  foldl (fun w prompt => (chat_turn chain prompt w).1) w prompts.

End Session.

(** ** Building the indexes ([build_indexes.py]) *)

Module BuildIndexes.

(** [build_and_save_index], with the pair it writes as its value.  The
    sentence model is [encode]; [embeddings.shape[1]] does not exist
    for an array without rows. *)
Definition build_and_save_index (encode : list DocMeta -> list Vec)
    (data_dict : list (string * DocMeta)) : Res (IndexFlatL2 * Metadata) :=
  let ids := data_dict.*1 in
  let documents := data_dict.*2 in
  let embeddings := encode documents in
  match embeddings with
  | [] => Raise IndexError
  | _ :: _ =>
      Ok ({| xb := embeddings |}, {| ids := ids; documents := documents |})
  end.

End BuildIndexes.

(** ** Entities of the documents ([Embeddings.py]) *)

Module Embeddings.

(** The characters [str.strip] and [\s] take for white space. *)
Definition is_space (c : ascii) : bool :=
  let n := nat_of_ascii c in
  ((9 <=? n)%nat && (n <=? 13)%nat) || ((28 <=? n)%nat && (n <=? 32)%nat).

(** [s.lstrip()]. *)
Fixpoint lstrip (s : string) : string :=
  match s with
  | EmptyString => EmptyString
  | String c s' => if is_space c then lstrip s' else s
  end.

(** [s.rstrip()]. *)
Fixpoint rstrip (s : string) : string :=
  match s with
  | EmptyString => EmptyString
  | String c s' =>
      match rstrip s' with
      | EmptyString => if is_space c then EmptyString else String c EmptyString
      | String d r => String c (String d r)
      end
  end.

(** [s.strip()]. *)
Definition strip (s : string) : string := rstrip (lstrip s).

(** [s.replace(a, b)] for single characters. *)
Fixpoint replace_char (a b : ascii) (s : string) : string :=
  match s with
  | EmptyString => EmptyString
  | String c s' =>
      String (if bool_decide (c = a) then b else c) (replace_char a b s')
  end.

(** [re.sub(r'\s+', ' ', s)]: [in_run] says that the character before
    was white space, whose run has its blank already. *)
Fixpoint collapse (in_run : bool) (s : string) : string :=
  match s with
  | EmptyString => EmptyString
  | String c s' =>
      if is_space c then
        if in_run then collapse true s' else String " " (collapse true s')
      else String c (collapse false s')
  end.

Definition collapse_spaces (s : string) : string := collapse false s.

(** [d[k] = v] on a dict that keeps the order of insertion. *)
Fixpoint dict_set {V : Type} (d : list (string * V)) (k : string) (v : V)
    : list (string * V) :=
  match d with
  | [] => [(k, v)]
  | (k', v') :: d' =>
      if bool_decide (k' = k) then (k, v) :: d'
      else (k', v') :: dict_set d' k v
  end.

(** An entity: a span of [doc.ents] with its label, or an entry of the
    list the function returns. *)
Record Entity : Type := { text : string; label : string }.

Definition relevant_labels : list string :=
  ["PERSON"; "ORG"; "GPE"; "LOC"; "PRODUCT"; "WORK_OF_ART"].

(** The text of an entity as it is stored. *)
Definition clean_entity_text (t : string) : string :=
  collapse_spaces (replace_char "010" " " (strip t)).

(** The body of [for ent in doc.ents]. *)
Definition add_entity (entities : list (string * Entity)) (ent : Entity)
    : list (string * Entity) :=
  if bool_decide (label ent ∈ relevant_labels) then
    let entity_text := clean_entity_text (text ent) in
    let key := PyStr.lower entity_text in
    dict_set entities key {| text := entity_text; label := label ent |}
  else entities.

(** [extract_entities]; [nlp] gives the spans of [doc.ents]. *)
Definition extract_entities (nlp : string -> list Entity) (t : string)
    : list Entity :=
  match t with
  | EmptyString => []
  | String _ _ => (foldl add_entity [] (nlp t)).*2
  end.

(** What every entry of the dict of [extract_entities] satisfies. *)
Definition entity_entry (spans : list Entity) (kv : string * Entity) : Prop :=
  kv.1 = PyStr.lower (text (kv.2)) /\
  label (kv.2) ∈ relevant_labels /\
  exists ent, ent ∈ spans /\ label ent = label (kv.2) /\
              text (kv.2) = clean_entity_text (text ent).

(** A text with no white space at either end, and no white space inside
    but single blanks. *)
Fixpoint single_spaced (s : string) : Prop :=
  match s with
  | EmptyString => True
  | String c s' =>
      (is_space c = true ->
       c = " "%char /\
       match s' with
       | EmptyString => False
       | String d _ => is_space d = false
       end) /\
      single_spaced s'
  end.

Definition trimmed (s : string) : Prop :=
  match s with
  | EmptyString => True
  | String c _ => is_space c = false
  end.

(** A value of an article: a string, a list of strings, or anything
    else, of which [str()] and the truth value are recorded. *)
Inductive Value : Type :=
| VStr (s : string)
| VList (l : list string)
| VOther (rendered : string) (truthy : bool).

(** [sep.join(l)]. *)
Fixpoint str_join (sep : string) (l : list string) : string :=
  match l with
  | [] => ""
  | [x] => x
  | x :: l' => x +:+ sep +:+ str_join sep l'
  end.

(** [d.get(k)] on a dict given by its items. *)
Fixpoint dict_get {V : Type} (d : list (string * V)) (k : string) : option V :=
  match d with
  | [] => None
  | (k', v) :: d' => if bool_decide (k' = k) then Some v else dict_get d' k
  end.

Definition CLASSIFICATION_RULES : list (string * list string) :=
  [ ("character", ["character"; "person"; "figure"]);
    ("location",
     ["location"; "place"; "city"; "district"; "area"; "building"]);
    ("concept",
     ["concept"; "technology"; "gear"; "item"; "weapon"; "cyberware";
      "skill"; "ability"]);
    ("organization",
     ["corporation"; "corp"; "organization"; "gang"; "group"; "company"]) ].

(** What one value adds to [full_text]. *)
Definition text_of (v : Value) : string :=
  match v with
  | VStr s => PyStr.lower s +:+ " "
  | VList l => PyStr.lower (str_join " " l) +:+ " "
  | VOther _ _ => ""
  end.

(** The text [get_document_type] searches. *)
Definition full_text (article_data : list (string * Value)) : string :=
  str_concat ((fun kv => text_of (kv.2)) <$> article_data).

(** The longest start of [s] without white space: what [[^\s]+] takes. *)
Fixpoint take_nonspace (s : string) : string :=
  match s with
  | EmptyString => EmptyString
  | String c s' => if is_space c then EmptyString else String c (take_nonspace s')
  end.

(** [s[n:]]. *)
Fixpoint str_drop (n : nat) (s : string) : string :=
  match n, s with
  | O, _ => s
  | S _, EmptyString => EmptyString
  | S n', String _ s' => str_drop n' s'
  end.

(** Group 1 of [re.search(r'category:([^\s]+)', text)]: the tag after
    the first "category:" that is followed by something. *)
Fixpoint find_category (t : string) : option string :=
  let here :=
    if PyStr.startswith "category:" t then
      match take_nonspace (str_drop 9 t) with
      | EmptyString => None
      | String c r => Some (String c r)
      end
    else None in
  match here with
  | Some tag => Some tag
  | None =>
      match t with
      | EmptyString => None
      | String _ t' => find_category t'
      end
  end.

(** The characters of [\w]. *)
Definition is_word (c : ascii) : bool :=
  let n := nat_of_ascii c in
  ((48 <=? n)%nat && (n <=? 57)%nat) || ((65 <=? n)%nat && (n <=? 90)%nat)
  || (n =? 95)%nat || ((97 <=? n)%nat && (n <=? 122)%nat).

Definition head_is_word (s : string) : bool :=
  match s with
  | EmptyString => false
  | String c _ => is_word c
  end.

(** Whether the last character of [s] is a word character, [prev]
    standing for the character before [s]. *)
Definition ends_in_word (prev : bool) (s : string) : bool :=
  match last_char s with
  | Some c => is_word c
  | None => prev
  end.

(** [re.search(r'\b' + kw + r'\b', t)] for a keyword without special
    characters; [prev] says whether a word character stands before [t].
    A [\b] holds where exactly one of the two neighbours is a word
    character. *)
Fixpoint word_search (prev : bool) (kw t : string) : bool :=
  (PyStr.startswith kw t
   && xorb prev (head_is_word t)
   && xorb (ends_in_word prev kw)
        (head_is_word (str_drop (String.length kw) t)))
  || match t with
     | EmptyString => false
     | String c t' => word_search (is_word c) kw t'
     end.

(** The test of the inner loop. *)
Definition keyword_hits (full_text category_tag keyword : string) : bool :=
  word_search false keyword full_text || PyStr.contains keyword category_tag.

(** [get_document_type]. *)
Definition get_document_type (article_data : list (string * Value)) : string :=
  let full_text := full_text article_data in
  let category_tag :=
    match find_category full_text with
    | Some tag => PyStr.lower tag
    | None => ""
    end in
  match List.find (fun rule => existsb (keyword_hits full_text category_tag) (rule.2))
          CLASSIFICATION_RULES with
  | Some rule => rule.1
  | None => "concept"
  end.

(** The loop that writes the type map: one entry per article that is
    not empty. *)
Definition document_type_map
    (normalized_corpus : list (string * list (string * Value)))
    : gmap string string :=
  foldl (fun m entry =>
           match entry.2 with
           | [] => m
           | _ :: _ => <[entry.1 := get_document_type (entry.2)]> m
           end) ∅ normalized_corpus.

Definition KEYS_TO_SKIP : list string := ["template_type"].

(** The document handed to the encoder. *)
Record EmbeddingDoc : Type := { doc_title : Value; doc_summary : string }.

(** The truth value of a value. *)
Definition truthy_value (v : Value) : bool :=
  match v with
  | VStr s => negb (bool_decide (s = ""))
  | VList l => negb (bool_decide (l = []))
  | VOther _ t => t
  end.

(** [f"{v}"]; the [repr] of a list is left to [repr_list]. *)
Definition format_value (repr_list : list string -> string) (v : Value)
    : string :=
  match v with
  | VStr s => s
  | VList l => repr_list l
  | VOther r _ => r
  end.

(** The string the loop makes of a value before it tests it. *)
Definition field_text (v : Value) : string :=
  match v with
  | VStr s => s
  | VList l => str_join " " l
  | VOther r _ => r
  end.

(** The body of the loop of [create_document_for_embedding]. *)
Definition add_part (doc_parts : list string) (kv : string * Value)
    : list string :=
  if bool_decide (kv.1 = "title") || bool_decide (kv.1 ∈ KEYS_TO_SKIP)
  then doc_parts
  else
    let value := field_text (kv.2) in
    match strip value with
    | EmptyString => doc_parts
    | String _ _ => doc_parts ++ [kv.1 +:+ ": " +:+ value]
    end.

(** An item the summary has something from: the title, or a field that
    is neither skipped nor blank. *)
Definition says_something (kv : string * Value) : bool :=
  bool_decide (kv.1 = "title")
  || (negb (bool_decide (kv.1 ∈ KEYS_TO_SKIP))
      && negb (bool_decide (strip (field_text (kv.2)) = ""))).

(** [create_document_for_embedding]. *)
Definition create_document_for_embedding (repr_list : list string -> string)
    (article_data : list (string * Value)) : EmbeddingDoc :=
  let article_title :=
    default (VStr "Unknown Title") (dict_get article_data "title") in
  let doc_parts :=
    if truthy_value article_title
    then ["title: " +:+ format_value repr_list article_title]
    else [] in
  let doc_parts := foldl add_part doc_parts article_data in
  {| doc_title := article_title;
     doc_summary := str_join ". " doc_parts +:+ "." |}.

End Embeddings.

(** ** Fetching the articles ([DataCollection.py]) *)

Module DataCollection.

Definition BATCH_SIZE : nat := 50.

(** [range(0, n, step)] for a positive [step]. *)
Definition py_range_step (n step : nat) : list nat :=
  (fun j => j * step) <$> seq 0 ((n + step - 1) / step).

(** [l[i:j]] for [0 <= i <= j]. *)
Definition py_slice {A : Type} (l : list A) (i j : nat) : list A :=
  take (j - i) (drop i l).

(** One round of the loop of [main_api_crawler]: the batch asked for is
    logged, and its results update the data. *)
Definition fetch_batch (get_content_for_titles : list string -> gmap string string)
    (all_titles : list string)
    (st : list (list string) * gmap string string) (i : nat)
    : list (list string) * gmap string string :=
  let batch := py_slice all_titles i (i + BATCH_SIZE) in
  (st.1 ++ [batch], get_content_for_titles batch ∪ st.2).

(** [main_api_crawler]: the batches it asks the wiki for, in order, and
    the data it saves.  The two calls to the wiki are its arguments. *)
Definition main_api_crawler (get_all_article_titles : list string)
    (get_content_for_titles : list string -> gmap string string)
    : list (list string) * gmap string string :=
  let all_titles := get_all_article_titles in
  foldl (fetch_batch get_content_for_titles all_titles) ([], ∅)
    (py_range_step (length all_titles) BATCH_SIZE).

End DataCollection.

(** ** More sample data *)

Module Hosts.

(** Everything in place. *)
Definition ready : Host :=
  {| files := Sample.env; encoder_loads := true; ollama_constructs := true |}.

(** No Ollama. *)
Definition offline : Host :=
  {| files := Sample.env; encoder_loads := true; ollama_constructs := false |}.

(** One vector per record, whatever the record. *)
Definition encode_all (docs : list DocMeta) : list Vec :=
  (fun _ => [0.3%Q; 0.4%Q]) <$> docs.

Definition lore_dict : list (string * DocMeta) :=
  [ ("Samurai", {| title := "Samurai"; summary := "title: Samurai." |});
    ("Johnny Silverhand",
     {| title := "Johnny Silverhand";
        summary := "title: Johnny Silverhand." |}) ].

(** The files a build of [lore_dict] leaves behind. *)
Definition built_env : Env :=
  {| sentence_transformer := Sample.encode;
     spacy_load := None;
     read_index := fun name =>
       if bool_decide (name = "lore") then
         Some {| xb := encode_all (lore_dict.*2) |}
       else None;
     load_metadata := fun name =>
       if bool_decide (name = "lore") then
         Some {| ids := lore_dict.*1; documents := lore_dict.*2 |}
       else None;
     load_type_map := None;
     load_ner := None |}.


(** Two articles of the normalized corpus, one of them empty. *)
Definition wiki : list (string * list (string * Embeddings.Value)) :=
  [ ("johnny silverhand",
     [ ("title", Embeddings.VStr "johnny silverhand");
       ("template_type", Embeddings.VStr "infobox character");
       ("overview", Embeddings.VStr "a rockerboy and a legend of night city");
       ("notes", Embeddings.VStr "   ") ]);
    ("stub", []) ].

Definition type_env : Env :=
  {| sentence_transformer := Sample.encode;
     spacy_load := None;
     read_index := fun _ => None;
     load_metadata := fun _ => None;
     load_type_map := Some (Embeddings.document_type_map wiki);
     load_ner := None |}.




(** The files of [Sample.env] with the timeline index unreadable. *)
Definition no_timeline_env : Env :=
  {| sentence_transformer := Sample.encode;
     spacy_load := None;
     read_index := fun name =>
       if bool_decide (name = "lore") then Some Sample.lore_index else None;
     load_metadata := load_metadata Sample.env;
     load_type_map := None;
     load_ner := None |}.



(** A bot with its chain and an empty history. *)
Definition ready_world : Session.World :=
  {| Session.oracle :=
       {| core := init Sample.env;
          llm := _init_llm ready;
          rag_chain := _init_chain (_init_llm ready) |};
     Session.history := [] |}.


(** Another session: no timeline index, no chain, and a history. *)
Definition other_world : Session.World :=
  {| Session.oracle :=
       {| core := init no_timeline_env; llm := None; rag_chain := None |};
     Session.history :=
       [ {| role := "user"; content := "Who runs Arasaka?";
            msg_sources := None |} ] |}.


Definition breaking (context : list Document) (input : string)
    : Session.Generator :=
  {| Session.yields := ["Samurai "]; Session.breaks := true |}.

End Hosts.

(** ** Facts about Python strings *)

Module PyStrFacts.
Import PyStr.

Lemma app_nil (b : string) : "" +:+ b = b.
Proof. reflexivity. Qed.

Lemma app_cons (c : ascii) (a b : string) :
  String c a +:+ b = String c (a +:+ b).
Proof. reflexivity. Qed.

Lemma str_app_assoc (a b c : string) :
  (a +:+ b) +:+ c = a +:+ (b +:+ c).
Proof.
  induction a as [|x a IH]; [done |].
  rewrite !app_cons. by rewrite IH.
Qed.

Lemma startswith_app (w b : string) : startswith w (w +:+ b) = true.
Proof.
  induction w as [|c w IH]; [done |].
  rewrite app_cons. simpl. rewrite IH. by rewrite bool_decide_eq_true_2.
Qed.

Lemma startswith_split (w q : string) :
  startswith w q = true -> exists b, q = w +:+ b.
Proof.
  revert q. induction w as [|c w IH]; intros q H.
  - by exists q.
  - destruct q as [|d q]; simpl in H; [done |].
    apply andb_true_iff in H as [Hc Hw].
    apply bool_decide_eq_true_1 in Hc. subst d.
    destruct (IH q Hw) as [b ->]. by exists b.
Qed.

Lemma contains_startswith (w q : string) :
  startswith w q = true -> contains w q = true.
Proof. intros H. destruct q; simpl in *; by rewrite H. Qed.

Lemma contains_occurs (w q : string) :
  contains w q = true <-> occurs_in w q.
Proof.
  split.
  - induction q as [|c q IH]; simpl; intros H.
    + apply orb_true_iff in H as [H | H]; [| done].
      destruct (startswith_split _ _ H) as [b ->]. by exists "", b.
    + apply orb_true_iff in H as [H | H].
      * destruct (startswith_split _ _ H) as [b Hb].
        exists "", b. by rewrite Hb.
      * destruct (IH H) as (a & b & ->). by exists (String c a), b.
  - intros (a & b & ->). induction a as [|c a IH].
    + rewrite app_nil. apply contains_startswith, startswith_app.
    + rewrite app_cons. simpl. rewrite IH. by rewrite orb_true_r.
Qed.

Lemma any_in_occurs (ws : list string) (q : string) :
  any_in ws q = true <-> exists w, In w ws /\ occurs_in w q.
Proof.
  unfold any_in. rewrite existsb_exists.
  split; intros (w & Hin & H); exists w; split; try done;
    by apply contains_occurs.
Qed.

Lemma any_in_none (ws : list string) (q : string) :
  any_in ws q = false <-> forall w, In w ws -> ~ occurs_in w q.
Proof.
  rewrite <- not_true_iff_false, any_in_occurs. split.
  - intros H w Hin Hocc. apply H. eauto.
  - intros H (w & Hin & Hocc). by apply (H w).
Qed.

Lemma lower_app (a b : string) : lower (a +:+ b) = lower a +:+ lower b.
Proof.
  induction a as [|c a IH]; [done |].
  rewrite app_cons. simpl. by rewrite IH.
Qed.

Lemma occurs_in_lower (w q : string) :
  is_lower w -> occurs_in w q -> occurs_in w (lower q).
Proof.
  intros Hw (a & b & ->). exists (lower a), (lower b).
  by rewrite !lower_app, Hw.
Qed.

End PyStrFacts.

(** ** Intent classification: properties *)

Section Classify.
Import PyStr PyStrFacts.

Lemma any_in_mentions (ws : list string) (q : string) :
  any_in ws (lower q) = true <-> mentions ws q.
Proof. apply any_in_occurs. Qed.

Lemma any_in_not_mentions (ws : list string) (q : string) :
  any_in ws (lower q) = false <-> ~ mentions ws q.
Proof. rewrite <- any_in_mentions. symmetry. apply not_true_iff_false. Qed.

Lemma mentions_dec (ws : list string) (q : string) :
  {mentions ws q} + {~ mentions ws q}.
Proof.
  destruct (any_in ws (lower q)) eqn:E.
  - left. by apply any_in_mentions.
  - right. by apply any_in_not_mentions.
Qed.

(** A keyword that sits inside a longer stretch [u ++ w ++ v] of the
    lowercased query is found all the same. *)
Lemma mentions_inside (ws : list string) (q w u v a b : string) :
  In w ws -> lower q = a +:+ (u +:+ w +:+ v) +:+ b -> mentions ws q.
Proof.
  intros Hin Hq. exists w. split; [done |].
  exists (a +:+ u), (v +:+ b). by rewrite Hq, !str_app_assoc.
Qed.

Lemma classify_timeline (q : string) :
  mentions timeline_keywords q -> classify_intent q = "timeline".
Proof.
  intros H. apply any_in_mentions in H.
  unfold classify_intent. by rewrite H.
Qed.

Lemma classify_person (q : string) :
  ~ mentions timeline_keywords q -> mentions person_keywords q ->
  classify_intent q = "person".
Proof.
  intros Ht Hp. apply any_in_not_mentions in Ht.
  apply any_in_mentions in Hp.
  unfold classify_intent. by rewrite Ht, Hp.
Qed.

Lemma classify_location (q : string) :
  ~ mentions timeline_keywords q -> ~ mentions person_keywords q ->
  mentions location_keywords q -> classify_intent q = "location".
Proof.
  intros Ht Hp Hl. apply any_in_not_mentions in Ht, Hp.
  apply any_in_mentions in Hl.
  unfold classify_intent. by rewrite Ht, Hp, Hl.
Qed.

Lemma classify_general (q : string) :
  ~ mentions timeline_keywords q -> ~ mentions person_keywords q ->
  ~ mentions location_keywords q -> classify_intent q = "general".
Proof.
  intros Ht Hp Hl. apply any_in_not_mentions in Ht, Hp, Hl.
  unfold classify_intent. by rewrite Ht, Hp, Hl.
Qed.

(** C3. [classify_intent] is a total function of the query string: it
    answers "timeline" exactly when a timeline keyword occurs in the
    lowercased query, otherwise "person" exactly when a person keyword
    occurs, otherwise "location" exactly when a location keyword occurs,
    and "general" exactly when none does; the answer is always one of
    the four intents and the empty query is "general". *)
Theorem classify_intent_precedence (q : string) :
  (classify_intent q = "timeline" <-> mentions timeline_keywords q) /\
  (classify_intent q = "person" <->
     ~ mentions timeline_keywords q /\ mentions person_keywords q) /\
  (classify_intent q = "location" <->
     ~ mentions timeline_keywords q /\ ~ mentions person_keywords q /\
     mentions location_keywords q) /\
  (classify_intent q = "general" <->
     ~ mentions timeline_keywords q /\ ~ mentions person_keywords q /\
     ~ mentions location_keywords q) /\
  In (classify_intent q) ["timeline"; "person"; "location"; "general"] /\
  classify_intent "" = "general".
Proof.
  destruct (mentions_dec timeline_keywords q) as [Ht | Ht].
  { rewrite (classify_timeline q Ht).
    repeat split; try done; try (intros; tauto); simpl; tauto. }
  destruct (mentions_dec person_keywords q) as [Hp | Hp].
  { rewrite (classify_person q Ht Hp).
    repeat split; try done; try (intros; tauto); simpl; tauto. }
  destruct (mentions_dec location_keywords q) as [Hl | Hl].
  { rewrite (classify_location q Ht Hp Hl).
    repeat split; try done; try (intros; tauto); simpl; tauto. }
  rewrite (classify_general q Ht Hp Hl).
  repeat split; try done; try (intros; tauto); simpl; tauto.
Qed.

(** C9. Keywords are matched as raw substrings of the lowercased
    query, never as whole words: a query whose lowercased form has
    "when", "year" or "timeline" anywhere is "timeline", whatever
    surrounds the keyword, as in "whenever"; a query whose lowercased
    form contains "whole" is "person" through the substring "who", and
    one that contains "nowhere" is "location" through "where", unless a
    keyword of higher precedence occurs as well. *)
Theorem classify_intent_substring (q a b : string) :
  (forall w, In w timeline_keywords -> lower q = a +:+ w +:+ b ->
             classify_intent q = "timeline") /\
  (lower q = a +:+ "whenever" +:+ b -> classify_intent q = "timeline") /\
  (lower q = a +:+ "whole" +:+ b ->
   ~ mentions timeline_keywords q -> classify_intent q = "person") /\
  (lower q = a +:+ "nowhere" +:+ b ->
   ~ mentions timeline_keywords q -> ~ mentions person_keywords q ->
   classify_intent q = "location").
Proof.
  split; [| split; [| split]].
  - intros w Hin Hq. apply classify_timeline.
    exists w. split; [done |]. by exists a, b.
  - intros Hq. apply classify_timeline.
    apply (mentions_inside _ q "when" "" "ever" a b); [simpl; tauto | done].
  - intros Hq Ht. apply classify_person; [done |].
    apply (mentions_inside _ q "who" "" "le" a b); [simpl; tauto | done].
  - intros Hq Ht Hp. apply classify_location; [done | done |].
    apply (mentions_inside _ q "where" "no" "" a b); [simpl; tauto | done].
Qed.

Lemma classify_intent_substring_witness :
  classify_intent "Whenever you want" = "timeline" /\
  classify_intent "See you WHENEVER" = "timeline" /\
  classify_intent "The WHOLE city" = "person" /\
  classify_intent "Nowhere to run" = "location".
Proof.
  split; [| split; [| split]].
  - refine (proj1 (classify_intent_substring
                     "Whenever you want" "" "ever you want") "when" _ _).
    + simpl; tauto.
    + reflexivity.
  - refine (proj1 (proj2 (classify_intent_substring
                            "See you WHENEVER" "see you " "")) _).
    reflexivity.
  - refine (proj1 (proj2 (proj2 (classify_intent_substring
                                   "The WHOLE city" "the " " city"))) _ _).
    + reflexivity.
    + apply any_in_not_mentions. reflexivity.
  - refine (proj2 (proj2 (proj2 (classify_intent_substring
                                   "Nowhere to run" "" " to run"))) _ _ _).
    + reflexivity.
    + apply any_in_not_mentions. reflexivity.
    + apply any_in_not_mentions. reflexivity.
Defined.

End Classify.

(** ** The stable sort *)

Section SortByFacts.
Context {A : Type} (key : A -> Q).

Lemma Qle_bool_false (x y : Q) : Qle_bool x y = false -> (y < x)%Q.
Proof.
  intros H. apply Qnot_le_lt. intros Hle.
  apply Qle_bool_iff in Hle. congruence.
Qed.

Lemma insert_by_perm (x : A) (l : list A) : insert_by key x l ≡ₚ x :: l.
Proof.
  induction l as [|y l IH]; simpl; [done |].
  destruct (Qle_bool (key x) (key y)); [done |].
  rewrite IH. apply Permutation_swap.
Qed.

Lemma sort_by_perm (l : list A) : sort_by key l ≡ₚ l.
Proof.
  induction l as [|x l IH]; simpl; [done |].
  by rewrite insert_by_perm, IH.
Qed.

Lemma sort_by_length (l : list A) : length (sort_by key l) = length l.
Proof. apply Permutation_length, sort_by_perm. Qed.

Lemma insert_by_sorted (x : A) (l : list A) :
  StronglySorted (key_le key) l -> StronglySorted (key_le key) (insert_by key x l).
Proof.
  induction 1 as [|y l Hl IH Hy]; simpl.
  - repeat constructor.
  - destruct (Qle_bool (key x) (key y)) eqn:E.
    + apply Qle_bool_iff in E.
      constructor; [by constructor |].
      constructor; [done |].
      eapply Forall_impl; [exact Hy |].
      intros z Hz. unfold key_le in *. by eapply Qle_trans.
    + apply Qle_bool_false in E.
      constructor; [done |].
      rewrite insert_by_perm. constructor; [| done].
      by apply Qlt_le_weak.
Qed.

Lemma sort_by_sorted (l : list A) : StronglySorted (key_le key) (sort_by key l).
Proof.
  induction l as [|x l IH]; simpl; [constructor |].
  by apply insert_by_sorted.
Qed.

Lemma with_key_insert_by (s : Q) (x : A) (l : list A) :
  with_key key s (insert_by key x l) = with_key key s (x :: l).
Proof.
  induction l as [|y l IH]; simpl; [done |].
  destruct (Qle_bool (key x) (key y)) eqn:E; [done |].
  apply Qle_bool_false in E. simpl in *. rewrite IH.
  destruct (Qeq_bool (key x) s) eqn:Ex; [| done].
  destruct (Qeq_bool (key y) s) eqn:Ey; [| done].
  apply Qeq_bool_iff in Ex, Ey. rewrite Ex, Ey in E.
  by apply Qlt_irrefl in E.
Qed.

(** Stability: among the elements that share a key, the sort keeps the
    order they had. *)
Lemma sort_by_stable (s : Q) (l : list A) :
  with_key key s (sort_by key l) = with_key key s l.
Proof.
  induction l as [|x l IH]; simpl; [done |].
  rewrite with_key_insert_by. simpl. by rewrite IH.
Qed.

Lemma with_key_take (s : Q) (n : nat) (l : list A) :
  with_key key s (take n l) `prefix_of` with_key key s l.
Proof.
  exists (with_key key s (drop n l)).
  unfold with_key. by rewrite <- List.filter_app, take_drop.
Qed.

Lemma sorted_take (n : nat) (l : list A) :
  StronglySorted (key_le key) l -> StronglySorted (key_le key) (take n l).
Proof.
  intros H. revert n. induction H as [|x l Hl IH Hx]; intros [|n]; simpl;
    try constructor; [apply IH |].
  apply Forall_forall. intros y Hy.
  rewrite Forall_forall in Hx. apply Hx.
  eapply subseteq_take, Hy.
Qed.

End SortByFacts.

(** ** The loop of [search_and_rank] *)

Section Loop.

Lemma py_getitem_nat {A : Type} (l : list A) (i : nat) (x : A) :
  l !! i = Some x -> py_getitem l (Z.of_nat i) = Ok x.
Proof.
  intros H. pose proof (lookup_lt_Some _ _ _ H) as Hlt.
  unfold py_getitem.
  replace (Z.of_nat i <? 0)%Z with false by lia.
  replace (0 <=? Z.of_nat i)%Z with true by lia.
  replace (Z.of_nat i <? Z.of_nat (length l))%Z with true by lia.
  simpl. by rewrite Nat2Z.id, H.
Qed.

Lemma py_getitem_middle {A : Type} (pre rest : list A) (x : A) :
  py_getitem (pre ++ x :: rest) (Z.of_nat (length pre)) = Ok x.
Proof. apply py_getitem_nat, list_lookup_middle. done. Qed.

Lemma traverse_length {A B : Type} (f : A -> Res B) (l : list A)
    (r : list B) :
  traverse f l = Ok r -> length r = length l.
Proof.
  revert r. induction l as [|x l IH]; simpl; intros r H.
  - by inversion H.
  - destruct (f x) as [y|e]; simpl in H; [| done].
    destruct (traverse f l) as [ys|e]; simpl in H; [| done].
    inversion H; subst. simpl. f_equal. by apply IH.
Qed.

Lemma live_length (slots : list (Q * Z)) :
  length (live slots) <= length slots.
Proof. unfold live. apply List.filter_length_le. Qed.

Lemma live_cons_sentinel (d : Q) (slots : list (Q * Z)) :
  live ((d, (-1)%Z) :: slots) = live slots.
Proof. done. Qed.

Lemma live_app (a b : list (Q * Z)) : live (a ++ b) = live a ++ live b.
Proof. unfold live. apply List.filter_app. Qed.

Lemma live_all (slots : list (Q * Z)) :
  Forall (fun s => s.2 ≠ (-1)%Z) slots -> live slots = slots.
Proof.
  induction 1 as [|s slots Hs _ IH]; [done |].
  unfold live in *. simpl. rewrite bool_decide_eq_false_2 by done.
  simpl. by rewrite IH.
Qed.

Lemma live_padding (n : nat) (d : Q) : live (replicate n (d, (-1)%Z)) = [].
Proof.
  induction n as [|n IH]; [done |].
  cbn [replicate]. by rewrite live_cons_sentinel.
Qed.

Variables (self : CyberpunkBot) (index_name : string).

(** One round of the loop, at the slot that follows [pre]. *)
Lemma rank_slot_at (pre slots : list (Q * Z)) (d : Q) (idx : Z)
    (acc : list Document) :
  rank_slot self index_name
    (fst <$> pre ++ (d, idx) :: slots) (snd <$> pre ++ (d, idx) :: slots)
    acc (length pre)
  = if bool_decide (idx = (-1)%Z) then Ok acc
    else store ← dict_getitem (metadata self) index_name;
         doc ← doc_at store (d, idx);
         Ok (acc ++ [doc]).
Proof.
  unfold rank_slot. rewrite !fmap_app, !fmap_cons. cbn [fst snd].
  replace (py_getitem (pre.*2 ++ idx :: slots.*2) (Z.of_nat (length pre)))
    with (Ok (A := Z) idx)
    by (rewrite <- (length_fmap snd pre); by rewrite py_getitem_middle).
  replace (py_getitem (pre.*1 ++ d :: slots.*1) (Z.of_nat (length pre)))
    with (Ok (A := Q) d)
    by (rewrite <- (length_fmap fst pre); by rewrite py_getitem_middle).
  cbn [mbind Res_bind]. case_bool_decide; [done |].
  destruct (dict_getitem (metadata self) index_name) as [store|e];
    cbn [mbind Res_bind]; [| done].
  unfold doc_at. cbn [fst snd].
  by destruct (py_getitem (documents store) idx).
Qed.

(** The loop visits the slots in order, skips a sentinel without
    touching anything, and appends one candidate per live slot. *)
Lemma for_each_slots (pre slots : list (Q * Z)) (acc : list Document) :
  for_each
    (rank_slot self index_name (fst <$> pre ++ slots) (snd <$> pre ++ slots))
    (seq (length pre) (length slots)) acc
  = docs ← gather self index_name (live slots); Ok (acc ++ docs).
Proof.
  revert pre acc. induction slots as [|[d idx] slots IH]; intros pre acc.
  - simpl. by rewrite app_nil_r.
  - change (seq (length pre) (length ((d, idx) :: slots)))
      with (length pre :: seq (S (length pre)) (length slots)).
    cbn [for_each]. rewrite rank_slot_at.
    specialize (IH (pre ++ [(d, idx)])).
    rewrite length_app, Nat.add_1_r in IH. cbn [length] in IH.
    rewrite <- !app_assoc in IH. cbn [app] in IH.
    case_bool_decide as Hidx.
    + subst idx. cbn [mbind Res_bind]. rewrite live_cons_sentinel.
      apply IH.
    + unfold live. cbn [List.filter snd].
      rewrite bool_decide_eq_false_2 by done. cbn [negb].
      fold (live slots). unfold gather at 1.
      destruct (dict_getitem (metadata self) index_name) as [store|e] eqn:Es;
        cbn [mbind Res_bind]; [| done].
      cbn [traverse].
      destruct (doc_at store (d, idx)) as [doc|e];
        cbn [mbind Res_bind]; [| done].
      rewrite IH. unfold gather.
      destruct (live slots) as [|s ls] eqn:El.
      * cbn [traverse mbind Res_bind]. by rewrite app_nil_r.
      * rewrite Es. cbn [mbind Res_bind].
        destruct (traverse (doc_at store) (s :: ls)) as [ys|e];
          cbn [mbind Res_bind]; [| done].
        by rewrite <- app_assoc.
Qed.

(** The loop on the output of a search with [TOP_K_RETRIEVAL] slots. *)
Lemma collect_slots (slots : list (Q * Z)) :
  length slots = TOP_K_RETRIEVAL ->
  collect self index_name (fst <$> slots) (snd <$> slots)
  = gather self index_name (live slots).
Proof.
  intros Hlen. unfold collect. rewrite <- Hlen.
  etrans; [apply (for_each_slots [] slots []) |].
  by destruct (gather self index_name (live slots)).
Qed.

End Loop.

(** ** The vector search *)

Section Search.

Lemma scored_in_range (ix : IndexFlatL2) (q : Vec) :
  Forall (in_range (length (xb ix))) (scored ix q).
Proof.
  apply Forall_forall. intros s Hs.
  apply elem_of_lookup_imap in Hs as (i & x & -> & Hx).
  apply lookup_lt_Some in Hx. unfold in_range. simpl. lia.
Qed.

Lemma nearest_in_range (ix : IndexFlatL2) (q : Vec) (k : nat) :
  Forall (in_range (length (xb ix))) (nearest ix q k).
Proof.
  apply Forall_forall. intros s Hs.
  apply subseteq_take in Hs. rewrite sort_by_perm in Hs.
  by eapply Forall_forall in Hs; [| apply scored_in_range].
Qed.

Lemma nearest_length (ix : IndexFlatL2) (q : Vec) (k : nat) :
  length (nearest ix q k) = min k (length (xb ix)).
Proof.
  unfold nearest, scored.
  by rewrite length_take, sort_by_length, length_imap.
Qed.

Lemma nearest_all (ix : IndexFlatL2) (q : Vec) (k : nat) :
  length (xb ix) <= k -> nearest ix q k ≡ₚ scored ix q.
Proof.
  intros Hk. unfold nearest. rewrite take_ge.
  - apply sort_by_perm.
  - unfold scored. by rewrite sort_by_length, length_imap.
Qed.

Lemma nearest_sorted (ix : IndexFlatL2) (q : Vec) (k : nat) :
  StronglySorted (key_le fst) (nearest ix q k).
Proof. apply sorted_take, sort_by_sorted. Qed.

Lemma in_range_live (n : nat) (ls : list (Q * Z)) :
  Forall (in_range n) ls -> live ls = ls.
Proof.
  intros H. apply live_all. eapply Forall_impl; [exact H |].
  unfold in_range. intros s Hs. lia.
Qed.

(** The search fills [k] slots: the neighbours, then the padding. *)
Lemma faiss_search_slots (ix : IndexFlatL2) (q : Vec) (k : nat) :
  exists slots,
    faiss_search ix q k = (fst <$> slots, snd <$> slots) /\
    length slots = k /\
    live slots = nearest ix q k.
Proof.
  exists (nearest ix q k ++
          replicate (k - length (nearest ix q k)) (FLT_MAX, (-1)%Z)).
  split; [done |]. split.
  - rewrite length_app, length_replicate, nearest_length. lia.
  - rewrite live_app, live_padding, app_nil_r.
    eapply in_range_live, nearest_in_range.
Qed.

(** The vector-search step only ever looks at the neighbours found. *)
Lemma retrieve_gather (self : CyberpunkBot) (query index_name : string)
    (ix : IndexFlatL2) :
  retrieve self query index_name ix
  = gather self index_name
      (nearest ix (model self query) TOP_K_RETRIEVAL).
Proof.
  unfold retrieve.
  destruct (faiss_search_slots ix (model self query) TOP_K_RETRIEVAL)
    as (slots & -> & Hlen & Hlive).
  by rewrite collect_slots, Hlive.
Qed.

Lemma doc_at_in_range (store : Metadata) (s : Q * Z) :
  in_range (length (documents store)) s ->
  exists c, doc_at store s = Ok c /\ built_from store s c.
Proof.
  intros [H0 Hn]. unfold doc_at, py_getitem, built_from, stored.
  replace (s.2 <? 0)%Z with false by lia.
  replace (0 <=? s.2)%Z with true by lia.
  replace (s.2 <? Z.of_nat (length (documents store)))%Z with true by lia.
  cbn [andb].
  destruct (documents store !! Z.to_nat (s.2)) as [[t m]|] eqn:E.
  - cbn [mbind Res_bind]. eexists. split; [done |]. done.
  - apply lookup_ge_None in E. lia.
Qed.

Lemma traverse_in_range (store : Metadata) (ls : list (Q * Z)) :
  Forall (in_range (length (documents store))) ls ->
  exists cands, traverse (doc_at store) ls = Ok cands /\
                Forall2 (built_from store) ls cands.
Proof.
  induction 1 as [|s ls Hs _ (cands & Hc & Hall)].
  - by exists [].
  - destruct (doc_at_in_range store s Hs) as (c & Hd & Hb).
    exists (c :: cands). simpl. rewrite Hd, Hc. split; [done |].
    by constructor.
Qed.

Lemma doc_at_score (store : Metadata) (s : Q * Z) (c : Document) :
  doc_at store s = Ok c -> md_score c = s.1.
Proof.
  unfold doc_at.
  destruct (py_getitem (documents store) (s.2)) as [meta|e];
    cbn [mbind Res_bind]; [| done].
  intros H. by inversion H.
Qed.

(** The candidates carry the distances of the slots, in slot order. *)
Lemma traverse_scores (store : Metadata) (ls : list (Q * Z))
    (cands : list Document) :
  traverse (doc_at store) ls = Ok cands ->
  md_score <$> cands = fst <$> ls.
Proof.
  revert cands. induction ls as [|s ls IH]; simpl; intros cands H.
  - by inversion H.
  - destruct (doc_at store s) as [c|e] eqn:Ec;
      cbn [mbind Res_bind] in H; [| done].
    destruct (traverse (doc_at store) ls) as [ys|e];
      cbn [mbind Res_bind] in H; [| done].
    inversion H; subst. simpl. f_equal; [by eapply doc_at_score |].
    by apply IH.
Qed.

End Search.

(** ** Candidates of an available corpus *)

Section Candidates.

Lemma built_from_stored (store : Metadata) (ls : list (Q * Z))
    (cands : list Document) :
  Forall2 (built_from store) ls cands ->
  stored store <$> ls = Some <$> (record_of <$> cands).
Proof.
  induction 1 as [|s c ls cands [_ Hs] _ IH]; [done |].
  rewrite !fmap_cons. by rewrite Hs, IH.
Qed.

Lemma lookup_seq_all {A : Type} (l : list A) :
  (fun i => l !! i) <$> seq 0 (length l) = Some <$> l.
Proof.
  apply list_eq. intros i. rewrite !list_lookup_fmap.
  destruct (decide (i < length l)) as [Hi | Hi].
  - rewrite lookup_seq_lt by done. simpl.
    by destruct (lookup_lt_is_Some_2 l i Hi) as [x ->].
  - rewrite lookup_seq_ge by lia.
    by rewrite (lookup_ge_None_2 l i) by lia.
Qed.

Lemma stored_scored (store : Metadata) (ix : IndexFlatL2) (q : Vec) :
  length (documents store) = length (xb ix) ->
  stored store <$> scored ix q = Some <$> documents store.
Proof.
  intros Hlen. unfold scored. rewrite fmap_imap.
  rewrite (imap_ext _ (fun i _ => documents store !! i)).
  - by rewrite imap_seq_0, <- Hlen, lookup_seq_all.
  - intros i x _. unfold stored. simpl. by rewrite Nat2Z.id.
Qed.

Lemma omap_Some {A : Type} (l : list A) : omap id (Some <$> l) = l.
Proof.
  induction l as [|x l IH]; [done |].
  rewrite fmap_cons. cbn [omap list_omap id]. by rewrite IH.
Qed.

Lemma Some_perm {A : Type} (l k : list A) :
  Some <$> l ≡ₚ Some <$> k -> l ≡ₚ k.
Proof.
  intros H. rewrite <- (omap_Some l), <- (omap_Some k). by rewrite H.
Qed.

Lemma candidates_available (self : CyberpunkBot)
    (query index_name : string) (ix : IndexFlatL2) (store : Metadata) :
  available self index_name ix store ->
  exists cands,
    candidates self query index_name = Ok cands /\
    retrieve self query index_name ix = Ok cands /\
    Forall2 (built_from store)
      (nearest ix (model self query) TOP_K_RETRIEVAL) cands.
Proof.
  intros (Hix & Hst & Hlen).
  unfold candidates. rewrite Hix, retrieve_gather.
  destruct (traverse_in_range store
              (nearest ix (model self query) TOP_K_RETRIEVAL))
    as (cands & Hc & Hall).
  { rewrite Hlen. apply nearest_in_range. }
  exists cands. split; [| split]; [| | done];
    unfold gather, dict_getitem; rewrite Hst; cbn [mbind Res_bind];
    by destruct (nearest ix (model self query) TOP_K_RETRIEVAL).
Qed.

(** C5. For an available corpus the vector-search step returns its
    candidates without raising, at most [TOP_K_RETRIEVAL] = 7 of them;
    the loop yields exactly what the slots without the sentinel [-1]
    yield, one candidate per such slot and in slot order, so that a
    sentinel slot neither raises nor leaves a candidate; and a corpus
    of fewer than 7 documents has each of its documents among the
    candidates exactly once. *)
Theorem retrieve_candidates (self : CyberpunkBot)
    (query index_name : string) (ix : IndexFlatL2) (store : Metadata) :
  available self index_name ix store ->
  TOP_K_RETRIEVAL = 7 /\
  (forall slots, length slots = TOP_K_RETRIEVAL ->
     collect self index_name (fst <$> slots) (snd <$> slots)
     = traverse (doc_at store) (live slots)) /\
  exists cands slots,
    retrieve self query index_name ix = Ok cands /\
    faiss_search ix (model self query) TOP_K_RETRIEVAL
      = (fst <$> slots, snd <$> slots) /\
    Forall2 (built_from store) (live slots) cands /\
    length cands <= TOP_K_RETRIEVAL /\
    length cands = min TOP_K_RETRIEVAL (length (xb ix)) /\
    (length (xb ix) < TOP_K_RETRIEVAL ->
     record_of <$> cands ≡ₚ documents store).
Proof.
  intros Hav. split; [done |]. split.
  { intros slots Hlen. rewrite collect_slots by done.
    destruct Hav as (_ & Hst & _).
    unfold gather, dict_getitem. rewrite Hst. cbn [mbind Res_bind].
    by destruct (live slots). }
  destruct (candidates_available self query index_name ix store Hav)
    as (cands & _ & Hr & Hall).
  destruct (faiss_search_slots ix (model self query) TOP_K_RETRIEVAL)
    as (slots & Hs & _ & Hlive).
  exists cands, slots. rewrite Hlive.
  assert (length cands = min TOP_K_RETRIEVAL (length (xb ix))) as Hn.
  { by rewrite <- (Forall2_length _ _ _ Hall), nearest_length. }
  repeat split; try done; [lia |].
  intros Hsmall. apply Some_perm.
  rewrite <- (built_from_stored _ _ _ Hall).
  rewrite nearest_all by lia.
  destruct Hav as (_ & _ & Hlen). by rewrite stored_scored.
Qed.

Lemma retrieve_candidates_witness :
  available (init Sample.env) "lore" Sample.lore_index
    Sample.lore_metadata /\
  exists cands,
    retrieve (init Sample.env) Sample.who_query "lore" Sample.lore_index
    = Ok cands /\
    length cands = 2 /\
    record_of <$> cands ≡ₚ documents Sample.lore_metadata.
Proof.
  assert (available (init Sample.env) "lore" Sample.lore_index
            Sample.lore_metadata) as Hav.
  { repeat split; reflexivity. }
  split; [exact Hav |].
  destruct (retrieve_candidates (init Sample.env) Sample.who_query "lore"
              Sample.lore_index Sample.lore_metadata Hav)
    as (_ & _ & cands & slots & Hr & _ & _ & _ & Hn & Hperm).
  exists cands. split; [exact Hr |]. split; [exact Hn |].
  apply Hperm. vm_compute. lia.
Defined.

End Candidates.

(** ** Ranking *)

Section Ranking.

Lemma search_and_rank_candidates (self : CyberpunkBot)
    (query index_name : string) :
  search_and_rank self query index_name
  = cands ← candidates self query index_name;
    Ok (take 4 (sort_by md_score cands)).
Proof.
  unfold search_and_rank, candidates.
  by destruct (indexes self !! index_name).
Qed.

(** What the sort and the cut make of a list of candidates. *)
Lemma top4_order (cands : list Document) :
  let docs := take 4 (sort_by md_score cands) in
  length docs = min 4 (length cands) /\
  StronglySorted score_le docs /\
  (forall s, with_key md_score s docs `prefix_of`
             with_key md_score s cands) /\
  docs ⊆+ cands.
Proof.
  cbn zeta. repeat split.
  - by rewrite length_take, sort_by_length.
  - apply sorted_take, sort_by_sorted.
  - intros s. rewrite <- (sort_by_stable md_score s cands).
    apply with_key_take.
  - rewrite <- (sort_by_perm md_score cands) at 2.
    apply sublist_submseteq, sublist_take.
Qed.

Lemma ask_rag_sources (self : CyberpunkBot) (query : string)
    (docs : list Document) :
  search_and_rank self query "lore" = Ok docs ->
  ask_rag self query
  = Ok (match docs with
        | [] => Refusal "Got nothing on that, choomba."
        | _ => ChainStream docs query
        end, md_title <$> docs).
Proof. intros H. unfold ask_rag. rewrite H. by destruct docs. Qed.

(** What [search_and_rank] returns for an available corpus: at most 4
    documents, in ascending order of the score they carry, those of
    equal score in the order of the candidates, each built from a slot
    of the search. *)
Lemma ranked_available (self : CyberpunkBot)
    (query index_name : string) (ix : IndexFlatL2) (store : Metadata) :
  available self index_name ix store ->
  exists cands docs,
    candidates self query index_name = Ok cands /\
    search_and_rank self query index_name = Ok docs /\
    length cands = min TOP_K_RETRIEVAL (length (xb ix)) /\
    length docs = min 4 (length cands) /\
    StronglySorted score_le docs /\
    (forall s, with_key md_score s docs `prefix_of`
               with_key md_score s cands) /\
    docs ⊆+ cands /\
    Forall (fun d => exists slot,
              slot ∈ nearest ix (model self query) TOP_K_RETRIEVAL /\
              built_from store slot d) docs.
Proof.
  intros Hav.
  destruct (candidates_available self query index_name ix store Hav)
    as (cands & Hc & _ & Hall).
  exists cands, (take 4 (sort_by md_score cands)).
  destruct (top4_order cands) as (Hlen & Hsorted & Hstable & Hsub).
  assert (search_and_rank self query index_name
          = Ok (take 4 (sort_by md_score cands))) as Hs.
  { by rewrite search_and_rank_candidates, Hc. }
  split; [done |]. split; [done |].
  split; [by rewrite <- (Forall2_length _ _ _ Hall), nearest_length |].
  split; [done |]. split; [done |]. split; [done |]. split; [done |].
  apply Forall_forall. intros d Hd.
  eapply elem_of_submseteq in Hd; [| exact Hsub].
  apply list_elem_of_lookup in Hd as [i Hi].
  destruct (Forall2_lookup_r _ _ _ _ _ Hall Hi) as (slot & Hslot & Hb).
  exists slot. split; [| done]. by eapply list_elem_of_lookup_2.
Qed.

(** C10. When the NER model could not be loaded, so that [nlp] is
    [None], the entities of every query are the empty set; this is the
    bot that [__init__] builds when [spacy.load] raises. *)
Theorem extract_query_entities_no_model (self : CyberpunkBot) (env : Env)
    (q : string) :
  (nlp self = None -> extract_query_entities self q = ∅) /\
  (spacy_load env = None ->
   nlp (init env) = None /\ extract_query_entities (init env) q = ∅).
Proof.
  unfold extract_query_entities. split.
  - by intros ->.
  - intros H. simpl. by rewrite H.
Qed.

Lemma extract_query_entities_no_model_witness :
  extract_query_entities (init Sample.bare_env) Sample.who_query = ∅ /\
  nlp (init Sample.env) = None /\
  extract_query_entities (init Sample.env) Sample.who_query = ∅.
Proof.
  destruct (extract_query_entities_no_model
              (init Sample.bare_env) Sample.env Sample.who_query)
    as [Hself Henv].
  split; [exact (Hself eq_refl) | exact (Henv eq_refl)].
Defined.

End Ranking.

(** ** Loading the corpora *)

Section Loading.
Variable env : Env.

(** The pair an entry of the final state comes from. *)
Lemma load_corpus_indexes (st : gmap string IndexFlatL2 * gmap string Metadata)
    (n name : string) :
  (load_corpus env st n).1 !! name
  = if decide (n = name) then
      match read_index env n with
      | Some ix => Some ix
      | None => st.1 !! name
      end
    else st.1 !! name.
Proof.
  unfold load_corpus.
  destruct (read_index env n) as [ix|], (load_metadata env n) as [m|];
    cbn [fst]; case_decide; simplify_map_eq; done.
Qed.

Lemma load_corpus_metadata (st : gmap string IndexFlatL2 * gmap string Metadata)
    (n name : string) :
  (load_corpus env st n).2 !! name
  = if decide (n = name) then
      match read_index env n, load_metadata env n with
      | Some _, Some m => Some m
      | _, _ => st.2 !! name
      end
    else st.2 !! name.
Proof.
  unfold load_corpus.
  destruct (read_index env n) as [ix|], (load_metadata env n) as [m|];
    cbn [snd]; case_decide; simplify_map_eq; done.
Qed.

Lemma foldl_load_indexes (names : list string)
    (st : gmap string IndexFlatL2 * gmap string Metadata) (name : string) :
  (foldl (load_corpus env) st names).1 !! name
  = if decide (name ∈ names) then
      match read_index env name with
      | Some ix => Some ix
      | None => st.1 !! name
      end
    else st.1 !! name.
Proof.
  revert st. induction names as [|n names IH]; intros st.
  - cbn [foldl]. case_decide as H; [by apply elem_of_nil in H | done].
  - cbn [foldl]. rewrite IH, load_corpus_indexes.
    destruct (decide (n = name)) as [-> | Hne].
    + rewrite (decide_True (P := name ∈ name :: names)) by left.
      by destruct (decide (name ∈ names)), (read_index env name).
    + destruct (decide (name ∈ names)) as [Hin | Hnin].
      * by rewrite (decide_True (P := name ∈ n :: names)) by (by right).
      * rewrite (decide_False (P := name ∈ n :: names)); [done |].
        by intros [? | ?]%elem_of_cons.
Qed.

Lemma foldl_load_metadata (names : list string)
    (st : gmap string IndexFlatL2 * gmap string Metadata) (name : string) :
  (foldl (load_corpus env) st names).2 !! name
  = if decide (name ∈ names) then
      match read_index env name, load_metadata env name with
      | Some _, Some m => Some m
      | _, _ => st.2 !! name
      end
    else st.2 !! name.
Proof.
  revert st. induction names as [|n names IH]; intros st.
  - cbn [foldl]. case_decide as H; [by apply elem_of_nil in H | done].
  - cbn [foldl]. rewrite IH, load_corpus_metadata.
    destruct (decide (n = name)) as [-> | Hne].
    + rewrite (decide_True (P := name ∈ name :: names)) by left.
      by destruct (decide (name ∈ names)), (read_index env name),
           (load_metadata env name).
    + destruct (decide (name ∈ names)) as [Hin | Hnin].
      * by rewrite (decide_True (P := name ∈ n :: names)) by (by right).
      * rewrite (decide_False (P := name ∈ n :: names)); [done |].
        by intros [? | ?]%elem_of_cons.
Qed.

(** The index of a corpus after [__init__]. *)
Lemma init_indexes (name : string) :
  indexes (init env) !! name
  = if decide (name ∈ corpus_names) then read_index env name else None.
Proof.
  unfold init. cbn [indexes]. rewrite foldl_load_indexes.
  cbn [fst]. rewrite lookup_empty.
  case_decide; [| done]. by destruct (read_index env name).
Qed.

(** The metadata of a corpus after [__init__]. *)
Lemma init_metadata (name : string) :
  metadata (init env) !! name
  = if decide (name ∈ corpus_names) then
      match read_index env name with
      | Some _ => load_metadata env name
      | None => None
      end
    else None.
Proof.
  unfold init. cbn [metadata]. rewrite foldl_load_metadata.
  cbn [snd]. rewrite lookup_empty.
  case_decide; [| done].
  by destruct (read_index env name), (load_metadata env name).
Qed.

(** C4 (amended). After [__init__], for every corpus name: when the
    index cannot be read the corpus is absent as a whole, neither
    index nor records being kept; records are never kept without
    their index; and when both the index and the records of one of
    the three corpora are read, both are kept exactly as read,
    whatever their lengths, no length being compared at load. *)
Theorem init_corpus_loading (name : string) :
  (read_index env name = None ->
   indexes (init env) !! name = None /\
   metadata (init env) !! name = None) /\
  (forall m, metadata (init env) !! name = Some m ->
             is_Some (indexes (init env) !! name)) /\
  (forall ix m, name ∈ corpus_names ->
                read_index env name = Some ix ->
                load_metadata env name = Some m ->
                indexes (init env) !! name = Some ix /\
                metadata (init env) !! name = Some m).
Proof.
  rewrite init_indexes, init_metadata. split; [| split].
  - intros ->. by destruct (decide (name ∈ corpus_names)).
  - intros m. destruct (decide (name ∈ corpus_names)); [| done].
    by destruct (read_index env name).
  - intros ix m Hin Hix Hm. rewrite !decide_True by done.
    by rewrite Hix.
Qed.

End Loading.

Lemma init_corpus_loading_witness :
  (read_index Sample.env "slang" = None /\
   indexes (init Sample.env) !! "slang" = None /\
   metadata (init Sample.env) !! "slang" = None) /\
  (metadata (init Sample.env) !! "lore" = Some Sample.lore_metadata /\
   is_Some (indexes (init Sample.env) !! "lore")) /\
  (indexes (init Sample.damaged_env) !! "lore" = Some Sample.lore_index /\
   length (xb Sample.lore_index) = 2 /\
   exists m, metadata (init Sample.damaged_env) !! "lore" = Some m /\
             length (documents m) = 1).
Proof.
  split; [| split].
  - split; [reflexivity |].
    exact (proj1 (init_corpus_loading Sample.env "slang") eq_refl).
  - split; [reflexivity |].
    exact (proj1 (proj2 (init_corpus_loading Sample.env "lore"))
             Sample.lore_metadata eq_refl).
  - destruct (proj2 (proj2 (init_corpus_loading Sample.damaged_env "lore"))
                Sample.lore_index _ ltac:(set_solver) eq_refl eq_refl)
      as [Hix Hmd].
    split; [exact Hix |]. split; [reflexivity |].
    eexists. split; [exact Hmd | reflexivity].
Defined.

(** C4 (as claimed) fails: with the metadata of the timeline unreadable
    the bot keeps the timeline index without its records, and a lore
    index of two vectors is kept next to a single record; both corpora
    are served, and the query raises. *)
Lemma init_breaks_load_invariant :
  ~ Spec.load_invariant (init Sample.damaged_env) "timeline" /\
  ~ Spec.load_invariant (init Sample.damaged_env) "lore" /\
  search_and_rank (init Sample.damaged_env) Sample.when_query "timeline"
  = Raise KeyError /\
  search_and_rank (init Sample.damaged_env) Sample.who_query "lore"
  = Raise IndexError.
Proof.
  split; [| split; [| split]].
  - intros [[H _] | (ix & m & _ & H & _)]; vm_compute in H; discriminate.
  - intros [[H _] | (ix & m & Hix & Hm & Hlen)].
    + vm_compute in H. discriminate.
    + vm_compute in Hix, Hm.
      injection Hix as <-. injection Hm as <-.
      vm_compute in Hlen. discriminate.
  - vm_compute. reflexivity.
  - vm_compute. reflexivity.
Qed.

(** ** Where the code leaves the ranking contract *)

(** C1. The scores [search_and_rank] ranks by are the raw distances.
    For the query "Who is Johnny Silverhand?" (intent "person") the lore
    candidates come back as Samurai at 0.40 and Johnny Silverhand, whose
    type tag is "character", at 0.45, in this order; the fusion rule
    gives the second one 0.45 - 0.2 = 0.25 and so the first place. *)
Theorem search_and_rank_ignores_boosts :
  classify_intent Sample.who_query = "person" /\
  type_map (init Sample.env) !! "Johnny Silverhand" = Some "character" /\
  exists d1 d2,
    search_and_rank (init Sample.env) Sample.who_query "lore" = Ok [d1; d2] /\
    md_title d1 = "Samurai" /\ (md_score d1 == 0.40)%Q /\
    md_title d2 = "Johnny Silverhand" /\ (md_score d2 == 0.45)%Q /\
    (Spec.boosted_score (init Sample.env) Sample.who_query "lore" d1
     == 0.40)%Q /\
    (Spec.boosted_score (init Sample.env) Sample.who_query "lore" d2
     == 0.25)%Q /\
    ~ (md_score d2
       == Spec.boosted_score (init Sample.env) Sample.who_query "lore" d2)%Q.
Proof.
  split; [reflexivity |]. split; [reflexivity |].
  eexists _, _. split; [vm_compute; reflexivity |].
  cbn [md_title md_score].
  repeat (split; [reflexivity |]). intros H. vm_compute in H. discriminate.
Qed.

(** C2. [ask_rag] searches the lore corpus whatever the intent of the
    query. "When did the Fourth Corporate War start?" is classified
    "timeline" and the timeline corpus is loaded and holds the event,
    yet the sources returned are the lore documents. *)
Theorem ask_rag_always_lore :
  classify_intent Sample.when_query = "timeline" /\
  Spec.selected_corpus Sample.when_query = "timeline" /\
  res_map (fmap md_title)
    (search_and_rank (init Sample.env) Sample.when_query "timeline")
  = Ok ["Timeline Event 2021"] /\
  res_map snd (ask_rag (init Sample.env) Sample.when_query)
  = Ok ["Samurai"; "Johnny Silverhand"] /\
  forall (self : CyberpunkBot) (query : string),
    res_map snd (ask_rag self query)
    = res_map (fmap md_title) (search_and_rank self query "lore").
Proof.
  repeat (split; [vm_compute; reflexivity |]).
  intros self query. unfold ask_rag.
  destruct (search_and_rank self query "lore") as [[|d docs]|e]; done.
Qed.

(** C6. The list [search_and_rank] returns is not in ascending order of
    the final score.  For the query "Who is Johnny Silverhand?" the lore
    corpus gives two documents, Samurai and then Johnny Silverhand: at
    most 4, and ascending in the score they carry, which is the raw
    distance (0.40, 0.45); the final scores of the fusion rule are 0.40
    and 0.25, so the list descends where the contract wants it to
    ascend. *)
Theorem search_and_rank_not_by_final_score :
  exists d1 d2,
    search_and_rank (init Sample.env) Sample.who_query "lore" = Ok [d1; d2] /\
    md_title d1 = "Samurai" /\ md_title d2 = "Johnny Silverhand" /\
    length [d1; d2] <= 4 /\
    StronglySorted score_le [d1; d2] /\
    (Spec.boosted_score (init Sample.env) Sample.who_query "lore" d2
     < Spec.boosted_score (init Sample.env) Sample.who_query "lore" d1)%Q /\
    ~ StronglySorted
        (key_le (Spec.boosted_score (init Sample.env) Sample.who_query "lore"))
        [d1; d2].
Proof.
  eexists _, _. split; [vm_compute; reflexivity |].
  split; [reflexivity |]. split; [reflexivity |].
  split; [cbn; lia |]. split; [| split].
  - repeat constructor. vm_compute. discriminate.
  - vm_compute. reflexivity.
  - intros H. apply StronglySorted_inv in H as [_ H].
    apply Forall_cons in H as [H _]. vm_compute in H. by apply H.
Qed.


(** ** The streaming loop *)

Section Streaming.
Import PyStrFacts.

Lemma str_app_nil_r (s : string) : s +:+ "" = s.
Proof.
  induction s as [|c s IH]; [done |]. rewrite app_cons. by rewrite IH.
Qed.

Lemma str_concat_snoc (chunks : list string) (chunk : string) :
  str_concat (chunks ++ [chunk]) = str_concat chunks +:+ chunk.
Proof.
  unfold str_concat. induction chunks as [|c chunks IH]; simpl.
  - apply str_app_nil_r.
  - by rewrite IH, str_app_assoc.
Qed.

Lemma should_flush_false (buf : string) :
  should_flush buf = false ->
  py_len buf <= 10 /\
  forall c, last_char buf = Some c -> c ∉ buffer_triggers.
Proof.
  unfold should_flush. intros H. apply orb_false_iff in H as [Hc Hlen].
  split.
  - apply Nat.ltb_ge in Hlen. lia.
  - intros c Hlast. rewrite Hlast in Hc.
    by apply bool_decide_eq_false_1 in Hc.
Qed.

Lemma str_prefix_app (a s b : string) :
  str_prefix a s -> str_prefix a (s +:+ b).
Proof. intros [r ->]. exists (r +:+ b). by rewrite str_app_assoc. Qed.

Lemma shows_less_app (a s b : string) :
  str_prefix a s -> b <> EmptyString -> shows_less a (s +:+ b).
Proof.
  intros [r ->] Hb. exists (r +:+ b). split.
  - destruct r; [done |]. by rewrite app_cons.
  - by rewrite str_app_assoc.
Qed.

Lemma append_nonempty (a b : string) :
  b <> EmptyString -> a +:+ b <> EmptyString.
Proof. intros Hb. destruct a; [done |]. by rewrite app_cons. Qed.

(** What holds of the variables of the loop after any number of chunks:
    the text received is the text shown followed by the buffer, the
    buffer would not be flushed, and the frames show growing initial
    parts of the text shown. *)
Lemma stream_invariant (chunks : list string) :
  let st := foldl stream_step stream_start chunks in
  full_response st +:+ token_buffer st = str_concat chunks /\
  should_flush (token_buffer st) = false /\
  exists shown,
    frames st = (fun t => t +:+ cursor) <$> shown /\
    Forall (fun t => str_prefix t (full_response st)) shown /\
    StronglySorted shows_less shown.
Proof.
  induction chunks as [|chunk chunks IH] using rev_ind.
  - repeat split; try done. exists []. repeat split; try done; constructor.
  - cbn zeta in *. rewrite foldl_snoc, str_concat_snoc.
    destruct IH as (Htext & Hbuf & shown & Hframes & Hpre & Hsorted).
    destruct chunk as [|c chunk].
    { cbn [stream_step]. rewrite str_app_nil_r.
      repeat split; try done. by exists shown. }
    cbn [stream_step].
    set (st := foldl stream_step stream_start chunks) in *.
    destruct (should_flush (token_buffer st +:+ String c chunk)) eqn:Hflush;
      cbn [full_response token_buffer frames].
    + split; [| split; [done |]].
      { by rewrite str_app_nil_r, <- Htext, str_app_assoc. }
      exists (shown ++ [full_response st +:+ token_buffer st +:+ String c chunk]).
      split; [| split].
      * by rewrite fmap_app, Hframes.
      * apply Forall_app. split.
        -- eapply Forall_impl; [exact Hpre |].
           intros t Ht. by apply str_prefix_app.
        -- constructor; [| constructor].
           exists "". by rewrite str_app_nil_r.
      * apply StronglySorted_app. split; [| split; [done | repeat constructor]].
        intros t1 t2 Ht1 Ht2. apply list_elem_of_singleton in Ht2 as ->.
        rewrite Forall_forall in Hpre.
        apply shows_less_app; [by apply Hpre |].
        by apply append_nonempty.
    + split; [| split; [done |]].
      { by rewrite <- Htext, str_app_assoc. }
      by exists shown.
Qed.

Lemma render_text (chunks : list string) :
  full_response (render chunks) = str_concat chunks.
Proof.
  destruct (stream_invariant chunks) as (Htext & _ & _).
  cbn zeta in Htext. unfold render.
  set (st := foldl stream_step stream_start chunks) in *.
  cbn [full_response].
  destruct (token_buffer st) eqn:Hbuf.
  - rewrite str_app_nil_r in Htext. by rewrite Htext.
  - by rewrite Htext.
Qed.

Lemma render_last (chunks : list string) :
  last (frames (render chunks)) = Some (full_response (render chunks)).
Proof. unfold render. cbn [full_response frames]. by rewrite last_snoc. Qed.

(** X1. Streaming loses nothing: whatever the chunks and wherever the
    buffer was flushed, the text left in [full_response] after the loop
    and the final flush is the concatenation of the chunks, empty ones
    included, and it is the last text put on the page. *)
Theorem render_complete (chunks : list string) :
  full_response (render chunks) = str_concat chunks /\
  last (frames (render chunks)) = Some (str_concat chunks).
Proof.
  split; [apply render_text |].
  by rewrite render_last, render_text.
Qed.

(** X2. Every text put on the page before the last one is an initial
    part of the final answer followed by the cursor of the source (the
    seven bytes of its literal), each one shows strictly more than the
    one before, and the last one is the answer without the cursor. *)
Theorem render_frames (chunks : list string) :
  exists shown,
    frames (render chunks)
    = ((fun t => t +:+ cursor) <$> shown) ++ [str_concat chunks] /\
    Forall (fun t => str_prefix t (str_concat chunks)) shown /\
    StronglySorted shows_less shown.
Proof.
  destruct (stream_invariant chunks)
    as (Htext & _ & shown & Hframes & Hpre & Hsorted).
  pose proof (render_text chunks) as Hfull.
  cbn zeta in *. exists shown. split; [| split; [| done]].
  - unfold render in *. cbn [full_response frames] in *.
    by rewrite Hframes, Hfull.
  - eapply Forall_impl; [exact Hpre |].
    intros t Ht. rewrite <- Htext. by apply str_prefix_app.
Qed.

(** X3. At any moment of the stream the text received so far is the
    text shown followed by the buffer, and the buffer holds at most 10
    characters, counted as [len] counts them (a character of several
    bytes is one), and does not end in a trigger character: the page
    never lags more than 10 characters behind the stream. *)
Theorem stream_lag (chunks : list string) :
  let st := foldl stream_step stream_start chunks in
  full_response st +:+ token_buffer st = str_concat chunks /\
  py_len (token_buffer st) <= 10 /\
  forall c, last_char (token_buffer st) = Some c -> c ∉ buffer_triggers.
Proof.
  destruct (stream_invariant chunks) as (Htext & Hbuf & _).
  cbn zeta in *. split; [done |]. by apply should_flush_false.
Qed.

Lemma code_points_concat (msg : string) :
  str_concat (code_points msg) = msg.
Proof.
  induction msg as [|c msg IH]; [done |].
  cbn [code_points]. destruct msg as [|d msg].
  - done.
  - destruct (is_continuation d).
    + destruct (code_points (String d msg)) as [|p ps] eqn:Hps.
      * by rewrite <- IH.
      * rewrite <- IH. unfold str_concat. cbn [foldr].
        by rewrite !app_cons.
    + unfold str_concat in *. cbn [foldr]. rewrite IH.
      by rewrite app_cons, app_nil.
Qed.

(** X5. When the lore corpus yields nothing, the user gets the refusal
    verbatim: the assistant's message is "Got nothing on that, choomba."
    with an empty list of sources, the chain is not consulted, and the
    refusal is the last text shown. *)
Theorem chat_turn_refusal (chain : list Document -> string -> list string)
    (bot : CyberpunkBot) (messages : list Message) (prompt : string) :
  prompt <> "" ->
  search_and_rank bot prompt "lore" = Ok [] ->
  exists shown,
    chat_turn chain bot messages prompt
    = (messages ++ [ {| role := "user"; content := prompt;
                        msg_sources := None |};
                     {| role := "assistant";
                        content := "Got nothing on that, choomba.";
                        msg_sources := Some [] |}], Ok shown) /\
    last shown = Some "Got nothing on that, choomba.".
Proof.
  intros Hp Hs. destruct prompt as [|c prompt]; [done |].
  exists (frames (render (code_points "Got nothing on that, choomba."))).
  unfold chat_turn. rewrite (ask_rag_sources _ _ _ Hs). cbn [chunks_of].
  by rewrite render_last, render_text, code_points_concat, <- app_assoc.
Qed.

Lemma chat_turn_refusal_witness :
  exists shown,
    chat_turn (fun _ _ => ["never asked"]) (init Sample.bare_env)
      [] Sample.who_query
    = ([ {| role := "user"; content := Sample.who_query;
            msg_sources := None |};
         {| role := "assistant"; content := "Got nothing on that, choomba.";
            msg_sources := Some [] |}], Ok shown) /\
    last shown = Some "Got nothing on that, choomba.".
Proof.
  exact (chat_turn_refusal (fun _ _ => ["never asked"]) (init Sample.bare_env)
           [] Sample.who_query ltac:(done) eq_refl).
Defined.

End Streaming.

(** ** Outcomes of a search *)

Section Outcomes.

Lemma py_getitem_raises {A : Type} (l : list A) (i : Z) (e : PyExc) :
  py_getitem l i = Raise e -> e = IndexError.
Proof.
  unfold py_getitem.
  repeat case_match; intros Hr; by inversion Hr.
Qed.

Lemma doc_at_raises (store : Metadata) (s : Q * Z) (e : PyExc) :
  doc_at store s = Raise e -> e = IndexError.
Proof.
  unfold doc_at.
  destruct (py_getitem (documents store) (s.2)) as [meta|e'] eqn:E;
    cbn [mbind Res_bind]; [done |].
  intros H. inversion H; subst. by eapply py_getitem_raises.
Qed.

Lemma traverse_raises (store : Metadata) (ls : list (Q * Z)) (e : PyExc) :
  traverse (doc_at store) ls = Raise e -> e = IndexError.
Proof.
  induction ls as [|s ls IH]; simpl; [done |].
  destruct (doc_at store s) as [c|e'] eqn:Ec; cbn [mbind Res_bind].
  - destruct (traverse (doc_at store) ls) as [ys|e'];
      cbn [mbind Res_bind]; [done |].
    intros H. inversion H; subst. by apply IH.
  - intros H. inversion H; subst. by eapply doc_at_raises.
Qed.

Lemma doc_at_past_end (store : Metadata) (s : Q * Z) :
  (Z.of_nat (length (documents store)) <= s.2)%Z ->
  doc_at store s = Raise IndexError.
Proof.
  intros H. unfold doc_at, py_getitem.
  replace (s.2 <? 0)%Z with false by lia.
  replace (s.2 <? Z.of_nat (length (documents store)))%Z with false by lia.
  by rewrite andb_false_r.
Qed.

Lemma traverse_past_end (store : Metadata) (ls : list (Q * Z)) :
  Exists (fun s => (Z.of_nat (length (documents store)) <= s.2)%Z) ls ->
  traverse (doc_at store) ls = Raise IndexError.
Proof.
  induction 1 as [s ls Hs | s ls _ IH]; simpl.
  - by rewrite doc_at_past_end.
  - destruct (doc_at store s) as [c|e] eqn:Ec; cbn [mbind Res_bind].
    + by rewrite IH.
    + by rewrite (doc_at_raises _ _ _ Ec).
Qed.

Lemma nearest_nil (ix : IndexFlatL2) (q : Vec) :
  nearest ix q TOP_K_RETRIEVAL = [] <-> xb ix = [].
Proof.
  rewrite <- !length_zero_iff_nil, nearest_length.
  unfold TOP_K_RETRIEVAL. lia.
Qed.

Lemma search_outcome (self : CyberpunkBot)
    (query index_name : string) (ix : IndexFlatL2) :
  indexes self !! index_name = Some ix ->
  (search_and_rank self query index_name = Raise KeyError <->
   xb ix <> [] /\ metadata self !! index_name = None) /\
  (search_and_rank self query index_name = Raise IndexError <->
   exists store,
     metadata self !! index_name = Some store /\
     Exists (fun s => (Z.of_nat (length (documents store)) <= s.2)%Z)
       (nearest ix (model self query) TOP_K_RETRIEVAL)) /\
  (xb ix = [] -> search_and_rank self query index_name = Ok []) /\
  (forall store, metadata self !! index_name = Some store ->
                 length (xb ix) <= length (documents store) ->
                 exists docs, search_and_rank self query index_name = Ok docs).
Proof.
  intros Hix.
  unfold search_and_rank. rewrite Hix, retrieve_gather.
  pose proof (nearest_nil ix (model self query)) as Hnil.
  pose proof (nearest_in_range ix (model self query) TOP_K_RETRIEVAL) as Hrange.
  set (found := nearest ix (model self query) TOP_K_RETRIEVAL) in *.
  unfold gather, dict_getitem.
  destruct found as [|s ls] eqn:Hfound.
  { cbn [mbind Res_bind]. split; [| split; [| split]].
    - split; [done |]. intros [Hne _]. destruct Hne. by apply Hnil.
    - split; [done |]. intros (store & _ & Hex). by apply Exists_nil in Hex.
    - done.
    - intros store _ _. by eexists. }
  assert (xb ix <> []) as Hne.
  { intros H. by apply Hnil in H. }
  destruct (metadata self !! index_name) as [store|] eqn:Hmd;
    cbn [mbind Res_bind].
  - destruct (decide (Forall (in_range (length (documents store))) (s :: ls)))
      as [Hall | Hnot].
    + destruct (traverse_in_range store (s :: ls) Hall) as (cands & -> & _).
      cbn [mbind Res_bind]. split; [| split; [| split]].
      * split; [done |]. by intros [_ ?].
      * split; [done |]. intros (store' & Heq & Hex). injection Heq as <-.
        apply Exists_exists in Hex as (t & Ht & Hpast).
        rewrite Forall_forall in Hall. specialize (Hall t Ht).
        unfold in_range in Hall. lia.
      * done.
      * intros store' _ _. by eexists.
    + apply not_Forall_Exists in Hnot; [| intros t; apply _].
      assert (Exists (fun t => (Z.of_nat (length (documents store)) <= t.2)%Z)
                (s :: ls)) as Hex.
      { apply Exists_exists in Hnot as (t & Ht & Hout).
        apply Exists_exists. exists t. split; [done |].
        rewrite Forall_forall in Hrange. specialize (Hrange t Ht).
        unfold compose, in_range in *. cbn beta in *. lia. }
      rewrite (traverse_past_end store (s :: ls) Hex).
      cbn [mbind Res_bind]. split; [| split; [| split]].
      * split; [done |]. by intros [_ ?].
      * split; [| done]. intros _. by exists store.
      * done.
      * intros store' Heq Hlen. injection Heq as <-.
        apply Exists_exists in Hex as (t & Ht & Hpast).
        rewrite Forall_forall in Hrange. specialize (Hrange t Ht).
        unfold in_range in Hrange. lia.
  - split; [| split; [| split]].
    + done.
    + split; [done |]. by intros (store & Hst & _).
    + done.
    + done.
Qed.

(** X6. What a search on a loaded index comes to, read off the index
    and the metadata alone: [KeyError] exactly when the index holds a
    vector and the corpus has no metadata; [IndexError] exactly when
    there is metadata and one of the positions found lies past the last
    stored record; a list otherwise.  An empty index never raises, and
    records beyond the last vector do no harm. *)
Theorem search_and_rank_outcome (self : CyberpunkBot)
    (query index_name : string) (ix : IndexFlatL2) :
  indexes self !! index_name = Some ix ->
  (search_and_rank self query index_name = Raise KeyError <->
   xb ix <> [] /\ metadata self !! index_name = None) /\
  (search_and_rank self query index_name = Raise IndexError <->
   exists store,
     metadata self !! index_name = Some store /\
     Exists (fun s => (Z.of_nat (length (documents store)) <= s.2)%Z)
       (nearest ix (model self query) TOP_K_RETRIEVAL)) /\
  (xb ix = [] -> search_and_rank self query index_name = Ok []) /\
  (forall store, metadata self !! index_name = Some store ->
                 length (xb ix) <= length (documents store) ->
                 exists docs, search_and_rank self query index_name = Ok docs).
Proof. apply search_outcome. Qed.

Lemma search_and_rank_outcome_witness :
  search_and_rank (init Sample.damaged_env) Sample.when_query "timeline"
  = Raise KeyError /\
  search_and_rank (init Sample.damaged_env) Sample.who_query "lore"
  = Raise IndexError /\
  exists docs,
    search_and_rank (init Sample.env) Sample.who_query "lore" = Ok docs.
Proof.
  split; [| split].
  - apply (search_and_rank_outcome (init Sample.damaged_env)
             Sample.when_query "timeline" Sample.timeline_index eq_refl).
    split; [done | reflexivity].
  - apply (search_and_rank_outcome (init Sample.damaged_env)
             Sample.who_query "lore" Sample.lore_index eq_refl).
    eexists. split; [reflexivity |].
    apply Exists_cons_tl, Exists_cons_hd. vm_compute. discriminate.
  - apply (proj2 (proj2 (proj2
             (search_and_rank_outcome (init Sample.env)
                Sample.who_query "lore" Sample.lore_index eq_refl)))
             Sample.lore_metadata eq_refl).
    vm_compute. lia.
Defined.

Lemma sort_by_sorted_id {A : Type} (key : A -> Q) (l : list A) :
  StronglySorted (key_le key) l -> sort_by key l = l.
Proof.
  induction 1 as [|x l Hl IH Hx]; [done |].
  cbn [sort_by foldr]. fold (sort_by key l). rewrite IH.
  destruct l as [|y l]; [done |]. cbn [insert_by].
  apply Forall_cons in Hx as [Hxy _]. unfold key_le in Hxy.
  apply Qle_bool_iff in Hxy. by rewrite Hxy.
Qed.

Lemma sorted_by_key {A B : Type} (f : A -> Q) (g : B -> Q)
    (l : list A) (k : list B) :
  f <$> l = g <$> k ->
  StronglySorted (key_le f) l -> StronglySorted (key_le g) k.
Proof.
  intros Heq Hl. revert k Heq.
  induction Hl as [|x l Hl IH Hx]; intros [|y k] Heq; try done.
  - constructor.
  - rewrite !fmap_cons in Heq. injection Heq as Hxy Hlk.
    constructor; [by apply IH |].
    apply Forall_forall. intros z Hz.
    apply list_elem_of_lookup in Hz as [i Hi].
    assert ((g <$> k) !! i = Some (g z)) as Hgi
      by (by rewrite list_lookup_fmap, Hi).
    rewrite <- Hlk, list_lookup_fmap in Hgi.
    destruct (l !! i) as [w|] eqn:Hw; [| done].
    injection Hgi as Hgi.
    rewrite Forall_forall in Hx.
    specialize (Hx w (list_elem_of_lookup_2 _ _ _ Hw)).
    unfold key_le in *. by rewrite <- Hxy, <- Hgi.
Qed.

(** The candidates come out of the loop in ascending order of score. *)
Lemma candidates_sorted (self : CyberpunkBot) (query index_name : string)
    (cands : list Document) :
  candidates self query index_name = Ok cands ->
  StronglySorted score_le cands.
Proof.
  unfold candidates.
  destruct (indexes self !! index_name) as [ix|].
  - rewrite retrieve_gather. unfold gather.
    destruct (nearest ix (model self query) TOP_K_RETRIEVAL)
      as [|s ls] eqn:Hfound.
    { intros H. inversion H. constructor. }
    destruct (dict_getitem (metadata self) index_name) as [store|e];
      cbn [mbind Res_bind]; [| done].
    intros Ht. apply traverse_scores in Ht.
    eapply (sorted_by_key fst md_score); [symmetry; exact Ht |].
    rewrite <- Hfound. apply nearest_sorted.
  - intros H. inversion H. constructor.
Qed.

Lemma search_and_rank_take (self : CyberpunkBot)
    (query index_name : string) (cands : list Document) :
  candidates self query index_name = Ok cands ->
  search_and_rank self query index_name = Ok (take 4 cands).
Proof.
  intros Hc. pose proof (candidates_sorted _ _ _ _ Hc) as Hsorted.
  rewrite search_and_rank_candidates, Hc. cbn [mbind Res_bind].
  by rewrite sort_by_sorted_id.
Qed.

(** X7. The sort never moves anything: the index hands its neighbours
    over nearest first, so the list [search_and_rank] returns is the
    first four candidates in the order the search gave them, whatever
    the ties. *)
Theorem search_and_rank_first_four (self : CyberpunkBot)
    (query index_name : string) (cands : list Document) :
  candidates self query index_name = Ok cands ->
  StronglySorted score_le cands /\
  search_and_rank self query index_name = Ok (take 4 cands).
Proof.
  intros Hc. split.
  - by eapply candidates_sorted.
  - by apply search_and_rank_take.
Qed.

Lemma search_and_rank_first_four_witness :
  exists d1 d2,
    candidates (init Sample.env) Sample.who_query "lore" = Ok [d1; d2] /\
    search_and_rank (init Sample.env) Sample.who_query "lore" = Ok [d1; d2].
Proof.
  eexists _, _.
  assert (candidates (init Sample.env) Sample.who_query "lore" = Ok _) as Hc
    by (vm_compute; reflexivity).
  split; [exact Hc |].
  exact (proj2 (search_and_rank_first_four _ _ _ _ Hc)).
Defined.

End Outcomes.

(** ** Starting the bot *)

Section Start.

Lemma lore_corpus : "lore" ∈ corpus_names.
Proof. unfold corpus_names. set_solver. Qed.

(** X8. The page gets a bot exactly when the sentence encoder loads,
    [ChatOllama] can be constructed, and both the index and the
    metadata of the lore corpus can be read; the timeline and slang
    files, the type map, the entity table and the NER model play no
    part. *)
Theorem initialize_bot_starts (h : Host) :
  is_Some (initialize_bot h) <->
  encoder_loads h = true /\ ollama_constructs h = true /\
  is_Some (read_index (files h) "lore") /\
  is_Some (load_metadata (files h) "lore").
Proof.
  unfold initialize_bot, new_oracle, _init_llm, _init_chain.
  destruct (encoder_loads h); [| split; [by intros [? ?] | by intros [? _]]].
  cbn [core llm rag_chain].
  rewrite init_indexes, init_metadata, !decide_True by apply lore_corpus.
  destruct (ollama_constructs h); cbn [llm rag_chain];
    [| split; [by intros [? ?] | by intros (_ & ? & _)]].
  rewrite !bool_decide_eq_true_2 by by eexists. cbn [negb orb].
  destruct (read_index (files h) "lore") as [ix|],
           (load_metadata (files h) "lore") as [md|];
    (rewrite ?(bool_decide_eq_true_2 (is_Some (Some _))) by by eexists);
    (rewrite ?(bool_decide_eq_false_2 (is_Some None)) by by intros [? ?]);
    cbn [negb orb]; split;
    try (by intros [? ?]);
    try (by intros (_ & _ & [? ?] & _));
    try (by intros (_ & _ & _ & [? ?]));
    try (intros _; repeat split; by eexists);
    try (intros _; by eexists).
Qed.

(** X9. A bot that [initialize_bot] lets through has its lore index and
    metadata and its chain: a lore query never raises [KeyError], and
    when the metadata has a record for every vector [ask_rag] returns,
    with the refusal exactly when the lore index holds no vector. *)
Theorem initialize_bot_lore (h : Host) (bot : Oracle) (query : string) :
  initialize_bot h = Some bot ->
  is_Some (rag_chain bot) /\
  exists ix store,
    indexes (core bot) !! "lore" = Some ix /\
    metadata (core bot) !! "lore" = Some store /\
    search_and_rank (core bot) query "lore" <> Raise KeyError /\
    (length (xb ix) <= length (documents store) ->
     exists r sources,
       ask_rag (core bot) query = Ok (r, sources) /\
       (r = Refusal "Got nothing on that, choomba." <-> xb ix = [])).
Proof.
  unfold initialize_bot. destruct (new_oracle h) as [o|]; [| done].
  destruct (llm o) as [m|] eqn:Hllm;
    [| by rewrite (bool_decide_eq_false_2 (is_Some None)) by by intros [? ?]].
  destruct (rag_chain o) as [c|] eqn:Hchain;
    [| rewrite (bool_decide_eq_false_2 (is_Some None)) by (by intros [? ?]);
       by rewrite orb_true_r].
  destruct (indexes (core o) !! "lore") as [ix|] eqn:Hix;
    [| by rewrite (bool_decide_eq_false_2 (is_Some None)) by by intros [? ?]].
  destruct (metadata (core o) !! "lore") as [store|] eqn:Hmd;
    [| rewrite (bool_decide_eq_false_2 (is_Some None)) by (by intros [? ?]);
       by rewrite !orb_true_r].
  rewrite !bool_decide_eq_true_2 by by eexists. cbn [negb orb].
  intros H. injection H as <-. rewrite Hchain. split; [by eexists |].
  exists ix, store. split; [done |]. split; [done |].
  destruct (search_outcome (core o) query "lore" ix Hix)
    as (Hkey & _ & Hempty & Hok).
  split.
  - intros Hraise. apply Hkey in Hraise as [_ Hnone]. congruence.
  - intros Hlen. destruct (Hok store Hmd Hlen) as [docs Hdocs].
    eexists _, _. split; [by apply ask_rag_sources |].
    split.
    + intros Hr. destruct docs as [|d docs]; [| done].
      clear Hr. unfold search_and_rank in Hdocs.
      rewrite Hix, retrieve_gather in Hdocs.
      apply dec_stable. intros Hne.
      assert (nearest ix (model (core o) query) TOP_K_RETRIEVAL <> [])
        as Hfound by (by rewrite nearest_nil).
      unfold gather, dict_getitem in Hdocs. rewrite Hmd in Hdocs.
      destruct (nearest ix (model (core o) query) TOP_K_RETRIEVAL)
        as [|s ls] eqn:Hn; [done |].
      cbn [mbind Res_bind] in Hdocs.
      destruct (traverse (doc_at store) (s :: ls)) as [cands|e] eqn:Ht;
        cbn [mbind Res_bind] in Hdocs; [| done].
      apply traverse_length in Ht.
      injection Hdocs as Hdocs.
      apply (f_equal length) in Hdocs.
      rewrite length_take, sort_by_length, Ht in Hdocs. simpl in Hdocs. lia.
    + intros Hxb. rewrite (Hempty Hxb) in Hdocs. by injection Hdocs as <-.
Qed.

Lemma initialize_bot_starts_witness :
  is_Some (initialize_bot Hosts.ready) /\
  initialize_bot Hosts.offline = None /\
  initialize_bot
    {| files := Sample.damaged_env; encoder_loads := true;
       ollama_constructs := true |} <> None /\
  initialize_bot
    {| files := Sample.bare_env; encoder_loads := true;
       ollama_constructs := true |} = None.
Proof.
  split; [| split; [| split]].
  - apply initialize_bot_starts. repeat split; by eexists.
  - apply eq_None_not_Some. intros H.
    apply initialize_bot_starts in H as (_ & H & _). discriminate.
  - intros H. apply eq_None_not_Some in H. apply H.
    apply initialize_bot_starts. repeat split; by eexists.
  - apply eq_None_not_Some. intros H.
    apply initialize_bot_starts in H as (_ & _ & [ix H] & _). discriminate.
Defined.

Lemma initialize_bot_lore_witness :
  exists bot r sources,
    initialize_bot Hosts.ready = Some bot /\
    is_Some (rag_chain bot) /\
    search_and_rank (core bot) Sample.who_query "lore" <> Raise KeyError /\
    ask_rag (core bot) Sample.who_query = Ok (r, sources) /\
    r <> Refusal "Got nothing on that, choomba.".
Proof.
  destruct (initialize_bot Hosts.ready) as [bot|] eqn:Hbot;
    [| vm_compute in Hbot; discriminate].
  destruct (initialize_bot_lore Hosts.ready bot Sample.who_query Hbot)
    as (Hchain & ix & store & Hix & Hmd & Hkey & Hask).
  assert (Some bot = Some {| core := init Sample.env;
                             llm := _init_llm Hosts.ready;
                             rag_chain := _init_chain (_init_llm Hosts.ready) |})
    as Heq by (rewrite <- Hbot; reflexivity).
  injection Heq as ->. cbn [core] in *.
  assert (ix = Sample.lore_index) as ->
    by (assert (Some ix = Some Sample.lore_index) as H
          by (rewrite <- Hix; reflexivity); by injection H).
  assert (store = Sample.lore_metadata) as ->
    by (assert (Some store = Some Sample.lore_metadata) as H
          by (rewrite <- Hmd; reflexivity); by injection H).
  destruct Hask as (r & sources & Hr & Hrefuse); [vm_compute; lia |].
  eexists _, r, sources. split; [reflexivity |].
  split; [exact Hchain |]. split; [exact Hkey |]. split; [exact Hr |].
  intros H. apply Hrefuse in H. discriminate.
Defined.

End Start.

(** ** Runs of the page *)

Section Sessions.

Lemma for_each_run {S : Type} (pure : S -> nat -> Res S)
    (body : S -> nat -> Session.Run S) (rng : list nat) (s : S)
    (w : Session.World) :
  (forall s i, body s i w = (w, Session.of_res (pure s i))) ->
  Session.for_each body rng s w = (w, Session.of_res (for_each pure rng s)).
Proof.
  intros Hbody. revert s. induction rng as [|i rng IH]; intros s; [done |].
  cbn [Session.for_each for_each]. unfold Session.bind. rewrite Hbody.
  destruct (pure s i) as [s'|e]; cbn [Session.of_res mbind Res_bind];
    [apply IH | done].
Qed.

Lemma rank_slot_run (index_name : string) (distances : list Q)
    (indices : list Z) (results : list Document) (i : nat)
    (w : Session.World) :
  Session.rank_slot index_name distances indices results i w
  = (w, Session.of_res
          (rank_slot (core (Session.oracle w)) index_name distances indices
             results i)).
Proof.
  unfold Session.rank_slot, rank_slot, Session.bind, Session.lift,
    Session.attr, Session.ret.
  destruct (py_getitem indices (Z.of_nat i)) as [idx|e];
    cbn [Session.of_res mbind Res_bind]; [| done].
  destruct (bool_decide (idx = (-1)%Z)); [done |].
  destruct (dict_getitem (metadata (core (Session.oracle w))) index_name)
    as [store|e]; cbn [Session.of_res mbind Res_bind]; [| done].
  destruct (py_getitem (documents store) idx) as [meta|e];
    cbn [Session.of_res mbind Res_bind]; [| done].
  by destruct (py_getitem distances (Z.of_nat i)) as [score|e].
Qed.

(** A call of [search_and_rank] writes nothing, and its result is the
    value of the function of the fields of the bot. *)
Lemma search_and_rank_run (query index_name : string) (w : Session.World) :
  Session.search_and_rank query index_name w
  = (w, Session.of_res
          (search_and_rank (core (Session.oracle w)) query index_name)).
Proof.
  unfold Session.search_and_rank, search_and_rank, Session.bind,
    Session.attr, Session.lift, Session.ret, dict_getitem.
  destruct (indexes (core (Session.oracle w)) !! index_name) as [ix|] eqn:Hix;
    [| done].
  cbn beta. rewrite Hix. cbn [Session.of_res].
  unfold retrieve, collect.
  destruct (faiss_search ix (model (core (Session.oracle w)) query)
              TOP_K_RETRIEVAL) as [distances indices].
  rewrite (for_each_run
             (rank_slot (core (Session.oracle w)) index_name distances indices))
    by (intros; apply rank_slot_run).
  by destruct (for_each _ _ _).
Qed.

(** [ask_rag] writes nothing either; it raises [AttributeError] when
    there are documents and no chain. *)
Lemma ask_rag_run (query : string) (w : Session.World) :
  Session.ask_rag query w
  = (w, match search_and_rank (core (Session.oracle w)) query "lore" with
        | Raise e => Session.Raised (Session.Lookup e)
        | Ok [] => Session.Value (Refusal "Got nothing on that, choomba.", [])
        | Ok (d :: docs) =>
            match rag_chain (Session.oracle w) with
            | None => Session.Raised Session.AttributeError
            | Some _ => Session.Value (ChainStream (d :: docs) query,
                                       md_title <$> d :: docs)
            end
        end).
Proof.
  unfold Session.ask_rag, Session.bind. rewrite search_and_rank_run.
  destruct (search_and_rank _ _ _) as [[|d docs]|e];
    cbn [Session.of_res]; [done | | done].
  unfold Session.attr, Session.raise, Session.ret.
  by destruct (rag_chain (Session.oracle w)).
Qed.

(** A run of the page on a prompt that is not empty, case by case. *)
Lemma chat_turn_run (chain : list Document -> string -> Session.Generator)
    (c : ascii) (prompt : string) (w : Session.World) :
  Session.chat_turn chain (String c prompt) w
  = match (Session.ask_rag (String c prompt) w).2 with
    | Session.Raised e =>
        ({| Session.oracle := Session.oracle w;
            Session.history :=
              Session.history w
              ++ [ {| role := "user"; content := String c prompt;
                      msg_sources := None |} ] |},
         Session.Raised e)
    | Session.Value answer =>
        if Session.breaks (Session.iterate chain (answer.1)) then
          ({| Session.oracle := Session.oracle w;
              Session.history :=
                Session.history w
                ++ [ {| role := "user"; content := String c prompt;
                        msg_sources := None |} ] |},
           Session.Raised Session.StreamError)
        else
          ({| Session.oracle := Session.oracle w;
              Session.history :=
                Session.history w
                ++ [ {| role := "user"; content := String c prompt;
                        msg_sources := None |};
                     {| role := "assistant";
                        content :=
                          str_concat
                            (Session.yields (Session.iterate chain (answer.1)));
                        msg_sources := Some (answer.2) |} ] |},
           Session.Value
             (frames (render (Session.yields
                                (Session.iterate chain (answer.1))))))
    end.
Proof.
  unfold Session.chat_turn, Session.bind, Session.append.
  rewrite !ask_rag_run. cbn [Session.oracle snd].
  destruct (match search_and_rank _ _ _ with Ok _ => _ | Raise _ => _ end)
    as [answer|e]; [| done].
  destruct (Session.breaks _); [done |].
  unfold Session.ret. cbn [Session.oracle Session.history].
  by rewrite render_text, <- app_assoc.
Qed.

Lemma chat_turn_oracle (chain : list Document -> string -> Session.Generator)
    (prompt : string) (w : Session.World) :
  Session.oracle (Session.chat_turn chain prompt w).1 = Session.oracle w.
Proof.
  destruct prompt as [|c prompt]; [done |].
  rewrite chat_turn_run.
  destruct (Session.ask_rag _ _).2 as [answer|e]; [| done].
  by destruct (Session.breaks _).
Qed.

Lemma session_oracle (chain : list Document -> string -> Session.Generator)
    (prompts : list string) (w : Session.World) :
  Session.oracle (Session.session chain prompts w) = Session.oracle w.
Proof.
  unfold Session.session. revert w.
  induction prompts as [|prompt prompts IH]; intros w; [done |].
  cbn [foldl]. by rewrite IH, chat_turn_oracle.
Qed.

(** The result of [search_and_rank] rests on the embedding of the query
    and on the index and the metadata of the corpus asked for. *)
Lemma search_and_rank_inputs (b1 b2 : CyberpunkBot)
    (query index_name : string) :
  model b1 query = model b2 query ->
  indexes b1 !! index_name = indexes b2 !! index_name ->
  metadata b1 !! index_name = metadata b2 !! index_name ->
  search_and_rank b1 query index_name = search_and_rank b2 query index_name.
Proof.
  intros Hm Hix Hmd. unfold search_and_rank. rewrite Hix.
  destruct (indexes b2 !! index_name) as [ix|]; [| done].
  rewrite !retrieve_gather, Hm.
  unfold gather, dict_getitem. by rewrite Hmd.
Qed.

(** C8. A call of [search_and_rank] leaves the bot and the history of
    the session as they were and returns the value of the function
    [search_and_rank] of the fields of the bot; the runs of the page
    write to the history only.  So the same query gets the same list in
    the same order again, right away or after any number of runs of
    the page on any prompts, whether they ended in an answer, in a
    refusal or in an exception; and so does [ask_rag].  The list rests
    on the embedding of the query and on the index and the metadata of
    the corpus alone: a session that agrees on these gets the same
    list, whatever its history, its chain and its other tables. *)
Theorem search_and_rank_stateless
    (chain : list Document -> string -> Session.Generator)
    (w : Session.World) (prompts : list string) (query index_name : string) :
  Session.oracle (Session.session chain prompts w) = Session.oracle w /\
  Session.search_and_rank query index_name w
  = (w, Session.of_res
          (search_and_rank (core (Session.oracle w)) query index_name)) /\
  Session.search_and_rank query index_name (Session.session chain prompts w)
  = (Session.session chain prompts w,
     Session.of_res
       (search_and_rank (core (Session.oracle w)) query index_name)) /\
  (Session.ask_rag query w).1 = w /\
  (Session.ask_rag query (Session.session chain prompts w)).2
  = (Session.ask_rag query w).2 /\
  (forall w2 : Session.World,
     model (core (Session.oracle w2)) query
     = model (core (Session.oracle w)) query ->
     indexes (core (Session.oracle w2)) !! index_name
     = indexes (core (Session.oracle w)) !! index_name ->
     metadata (core (Session.oracle w2)) !! index_name
     = metadata (core (Session.oracle w)) !! index_name ->
     (Session.search_and_rank query index_name w2).2
     = (Session.search_and_rank query index_name w).2).
Proof.
  pose proof (session_oracle chain prompts w) as Hsame.
  split; [done |]. split; [apply search_and_rank_run |].
  split; [by rewrite search_and_rank_run, Hsame |].
  split; [by rewrite ask_rag_run |].
  split; [by rewrite !ask_rag_run, Hsame |].
  intros w2 Hm Hix Hmd. rewrite !search_and_rank_run. cbn [snd].
  by rewrite (search_and_rank_inputs _ _ _ _ Hm Hix Hmd).
Qed.

Lemma search_and_rank_stateless_witness :
  (Session.search_and_rank Sample.who_query "lore" Hosts.other_world).2
  = (Session.search_and_rank Sample.who_query "lore" Hosts.ready_world).2 /\
  Session.search_and_rank Sample.who_query "lore"
    (Session.session Hosts.breaking [Sample.when_query; ""; Sample.who_query]
       Hosts.ready_world)
  = (Session.session Hosts.breaking [Sample.when_query; ""; Sample.who_query]
       Hosts.ready_world,
     Session.of_res
       (search_and_rank (init Sample.env) Sample.who_query "lore")).
Proof.
  destruct (search_and_rank_stateless Hosts.breaking Hosts.ready_world
              [Sample.when_query; ""; Sample.who_query]
              Sample.who_query "lore")
    as (_ & _ & Hafter & _ & _ & Hinputs).
  split; [| exact Hafter].
  apply Hinputs; reflexivity.
Defined.



End Sessions.

(** ** Entities of the documents *)

Section Entities.
Import PyStr Embeddings.

Lemma dict_set_keys {V : Type} (d : list (string * V)) (k : string) (v : V) :
  (dict_set d k v).*1 = if bool_decide (k ∈ d.*1) then d.*1 else d.*1 ++ [k].
Proof.
  induction d as [|[k' v'] d IH]; [done |].
  cbn [dict_set]. destruct (decide (k' = k)) as [-> | Hne].
  - rewrite (bool_decide_eq_true_2 (k = k)) by done.
    rewrite bool_decide_eq_true_2; [done |].
    rewrite fmap_cons. apply elem_of_cons. by left.
  - rewrite (bool_decide_eq_false_2 (k' = k)) by done.
    rewrite !fmap_cons, IH. cbn [fst].
    destruct (decide (k ∈ d.*1)) as [Hin | Hin].
    + rewrite (bool_decide_eq_true_2 (k ∈ d.*1)) by done.
      rewrite bool_decide_eq_true_2; [done |]. apply elem_of_cons. by right.
    + rewrite (bool_decide_eq_false_2 (k ∈ d.*1)) by done.
      rewrite bool_decide_eq_false_2; [done |].
      by intros [? | ?]%elem_of_cons.
Qed.

Lemma dict_set_NoDup {V : Type} (d : list (string * V)) (k : string) (v : V) :
  NoDup d.*1 -> NoDup (dict_set d k v).*1.
Proof.
  intros Hd. rewrite dict_set_keys. case_bool_decide as Hin; [done |].
  apply NoDup_app. split; [done |]. split; [| apply NoDup_singleton].
  intros x Hx Hk. apply list_elem_of_singleton in Hk as ->. done.
Qed.

Lemma dict_set_elem {V : Type} (d : list (string * V)) (k : string) (v : V)
    (k' : string) (v' : V) :
  (k', v') ∈ dict_set d k v -> (k', v') = (k, v) \/ (k', v') ∈ d.
Proof.
  induction d as [|[k0 v0] d IH]; cbn [dict_set].
  - intros H. apply list_elem_of_singleton in H. by left.
  - case_bool_decide as Hk; subst.
    + intros [-> | Hin]%elem_of_cons; [by left |].
      right. apply elem_of_cons. by right.
    + intros [-> | Hin]%elem_of_cons; [right; apply elem_of_cons; by left |].
      destruct (IH Hin) as [? | ?]; [by left |].
      right. apply elem_of_cons. by right.
Qed.

Lemma dict_set_key_in {V : Type} (d : list (string * V)) (k : string) (v : V) :
  k ∈ (dict_set d k v).*1.
Proof.
  rewrite dict_set_keys. case_bool_decide; [done |].
  apply elem_of_app. right. by apply list_elem_of_singleton.
Qed.

Lemma dict_set_keys_mono {V : Type} (d : list (string * V)) (k : string)
    (v : V) (k' : string) :
  k' ∈ d.*1 -> k' ∈ (dict_set d k v).*1.
Proof.
  intros H. rewrite dict_set_keys. case_bool_decide; [done |].
  apply elem_of_app. by left.
Qed.

Lemma add_entity_invariant (spans : list Entity) :
  let d := foldl add_entity [] spans in
  NoDup d.*1 /\
  Forall (entity_entry spans) d /\
  forall ent, ent ∈ spans -> label ent ∈ relevant_labels ->
              lower (clean_entity_text (text ent)) ∈ d.*1.
Proof.
  induction spans as [|ent spans IH] using rev_ind.
  - cbn. split; [constructor |]. split; [constructor |].
    intros ent H. by apply elem_of_nil in H.
  - cbn zeta in *. rewrite foldl_snoc.
    destruct IH as (Hnd & Hall & Hcov).
    set (d := foldl add_entity [] spans) in *.
    assert (Forall (entity_entry (spans ++ [ent])) d) as Hall'.
    { eapply Forall_impl; [exact Hall |].
      intros kv (Hk & Hl & e & He & Hle & Hte).
      split; [done |]. split; [done |]. exists e.
      split; [| done]. apply elem_of_app. by left. }
    unfold add_entity. case_bool_decide as Hrel.
    + split; [by apply dict_set_NoDup |]. split.
      * apply Forall_forall. intros [k e] Hke.
        apply dict_set_elem in Hke as [Heq | Hin].
        -- injection Heq as -> ->. split; [done |]. split; [done |].
           exists ent. split; [| done].
           apply elem_of_app. right. by apply list_elem_of_singleton.
        -- rewrite Forall_forall in Hall'. by apply Hall'.
      * intros e [He | He]%elem_of_app Hl.
        -- by apply dict_set_keys_mono, Hcov.
        -- apply list_elem_of_singleton in He as ->. apply dict_set_key_in.
    + split; [done |]. split; [done |].
      intros e [He | He]%elem_of_app Hl.
      * by apply Hcov.
      * apply list_elem_of_singleton in He as ->. done.
Qed.



Lemma extract_entities_from (nlp : string -> list Entity) (t : string) :
  Forall (fun e => label e ∈ relevant_labels /\
                   exists ent, ent ∈ nlp t /\ label ent = label e /\
                               text e = clean_entity_text (text ent))
    (extract_entities nlp t).
Proof.
  destruct t as [|c t]; [constructor |]. cbn [extract_entities].
  destruct (add_entity_invariant (nlp (String c t))) as (_ & Hall & _).
  cbn zeta in *. apply Forall_fmap. eapply Forall_impl; [exact Hall |].
  by intros kv (_ & Hl & He).
Qed.










Lemma is_space_newline : is_space "010" = true.
Proof. reflexivity. Qed.

Lemma lstrip_trimmed (s : string) : trimmed (lstrip s).
Proof.
  induction s as [|c s IH]; [done |]. cbn [lstrip].
  by destruct (is_space c) eqn:Hc.
Qed.

Lemma rstrip_trimmed (s : string) : trimmed s -> trimmed (rstrip s).
Proof.
  destruct s as [|c s]; [done |]. cbn [trimmed rstrip]. intros Hc.
  destruct (rstrip s); by rewrite ?Hc.
Qed.

Lemma rstrip_ends (s : string) (c : ascii) :
  last_char (rstrip s) = Some c -> is_space c = false.
Proof.
  induction s as [|a s IH]; [done |]. cbn [rstrip].
  destruct (rstrip s) as [|d r].
  - destruct (is_space a) eqn:Ha; [done |].
    intros H. injection H as <-. done.
  - exact IH.
Qed.

Lemma replace_newline_keeps (c : ascii) :
  is_space c = false -> (if bool_decide (c = "010"%char) then " "%char else c) = c.
Proof.
  intros Hc. case_bool_decide as Heq; [| done].
  subst c. by rewrite is_space_newline in Hc.
Qed.

Lemma replace_trimmed (s : string) :
  trimmed s -> trimmed (replace_char "010" " " s).
Proof.
  destruct s as [|c s]; [done |]. cbn [trimmed replace_char].
  intros Hc. by rewrite replace_newline_keeps.
Qed.

Lemma replace_last (s : string) (c : ascii) :
  (forall d, last_char s = Some d -> is_space d = false) ->
  last_char (replace_char "010" " " s) = Some c -> is_space c = false.
Proof.
  induction s as [|a s IH]; [done |]. cbn [replace_char].
  destruct s as [|b s].
  - cbn. intros Ha H. injection H as <-.
    specialize (Ha a eq_refl). by rewrite replace_newline_keeps.
  - intros Hlast. apply IH. intros d Hd. by apply Hlast.
Qed.

Lemma collapse_run_starts (s : string) :
  (forall d, last_char s = Some d -> is_space d = false) ->
  s <> "" ->
  exists d r, collapse true s = String d r /\ is_space d = false.
Proof.
  induction s as [|c s IH]; [done |]. intros Hlast _. cbn [collapse].
  destruct (is_space c) eqn:Hc; [| by eexists _, _].
  destruct s as [|b s].
  - specialize (Hlast c eq_refl). congruence.
  - apply IH; [| done]. intros d Hd. by apply Hlast.
Qed.

Lemma collapse_single_spaced (b : bool) (s : string) :
  (forall d, last_char s = Some d -> is_space d = false) ->
  single_spaced (collapse b s).
Proof.
  revert b. induction s as [|c s IH]; intros b Hlast; [done |].
  assert (s <> "" -> forall d, last_char s = Some d -> is_space d = false)
    as Hrest.
  { intros Hs d Hd. apply Hlast. destruct s; [done | exact Hd]. }
  assert (forall b', single_spaced (collapse b' s)) as Hs.
  { intros b'. destruct s as [|a s]; [done |]. by apply IH, Hrest. }
  cbn [collapse]. destruct (is_space c) eqn:Hc.
  - assert (s <> "") as Hne.
    { intros ->. specialize (Hlast c eq_refl). congruence. }
    destruct b; [apply Hs |].
    cbn [single_spaced]. split; [| apply Hs]. intros _. split; [done |].
    destruct (collapse_run_starts s (Hrest Hne) Hne) as (d & r & -> & Hd).
    done.
  - cbn [single_spaced]. split; [| apply Hs]. intros H. congruence.
Qed.

Lemma collapse_trimmed (s : string) :
  trimmed s -> trimmed (collapse false s).
Proof.
  destruct s as [|c s]; [done |]. cbn [trimmed collapse].
  intros Hc. by rewrite Hc.
Qed.

Lemma clean_entity_text_normal (t : string) :
  trimmed (clean_entity_text t) /\ single_spaced (clean_entity_text t).
Proof.
  unfold clean_entity_text, collapse_spaces, strip. split.
  - apply collapse_trimmed, replace_trimmed, rstrip_trimmed, lstrip_trimmed.
  - apply collapse_single_spaced. intros d.
    apply replace_last. intros c. apply rstrip_ends.
Qed.

(** X11. The text stored for an entity is normalised: it neither
    starts nor ends with white space, and the only white space inside
    it is single blanks, whatever line breaks, tabs or runs of blanks
    the span had. *)
Theorem extract_entities_normalised (nlp : string -> list Entity)
    (t : string) :
  Forall (fun e => trimmed (text e) /\ single_spaced (text e))
    (extract_entities nlp t).
Proof.
  eapply Forall_impl; [apply extract_entities_from |].
  intros e (_ & ent & _ & _ & ->). apply clean_entity_text_normal.
Qed.



End Entities.

(** ** From the build to the query *)

Section Build.
Import BuildIndexes.

(** X13. A pair written by one build can be served: if the encoder
    returns one vector per document, [build_and_save_index] raises
    [IndexError] exactly for an empty corpus, and otherwise writes an
    index and a metadata of the same length, with ids and documents in
    the order of the corpus; a bot that loads this pair answers every
    query on it without raising, with [min 4 n] documents of the
    corpus. *)
Theorem build_then_search (encode : list DocMeta -> list Vec)
    (data_dict : list (string * DocMeta)) (env : Env) (name query : string) :
  (forall docs, length (encode docs) = length docs) ->
  (build_and_save_index encode data_dict = Raise IndexError <->
   data_dict = []) /\
  forall ix md,
    build_and_save_index encode data_dict = Ok (ix, md) ->
    ids md = data_dict.*1 /\ documents md = data_dict.*2 /\
    length (xb ix) = length (documents md) /\
    (name ∈ corpus_names ->
     read_index env name = Some ix -> load_metadata env name = Some md ->
     exists docs,
       search_and_rank (init env) query name = Ok docs /\
       length docs = min 4 (length data_dict) /\
       Forall (fun d => record_of d ∈ data_dict.*2) docs).
Proof.
  intros Henc. unfold build_and_save_index.
  specialize (Henc (data_dict.*2)). rewrite length_fmap in Henc.
  destruct (encode data_dict.*2) as [|v vs] eqn:Hvs.
  - split.
    + split; [| done]. intros _. by destruct data_dict.
    + intros ix md H. done.
  - split.
    + split; [done |]. intros ->. done.
    + intros ix md H. injection H as <- <-. cbn [ids documents xb].
      split; [done |]. split; [done |].
      split; [by rewrite length_fmap |].
      intros Hname Hix Hmd.
      assert (available (init env) name {| xb := v :: vs |}
                {| ids := data_dict.*1; documents := data_dict.*2 |}) as Hav.
      { split; [| split].
        - by rewrite init_indexes, decide_True.
        - by rewrite init_metadata, decide_True, Hix.
        - cbn [documents xb]. by rewrite length_fmap. }
      destruct (ranked_available (init env) query name _ _ Hav)
        as (cands & docs & Hc & Hs & Hn & Hlen & _ & _ & _ & Hfrom).
      exists docs. split; [done |]. split.
      * rewrite Hlen, Hn. cbn [xb]. unfold TOP_K_RETRIEVAL. lia.
      * eapply Forall_impl; [exact Hfrom |].
        intros d (slot & _ & _ & Hst). unfold stored in Hst.
        cbn [documents] in Hst. by eapply list_elem_of_lookup_2.
Qed.

Lemma build_then_search_witness :
  exists ix md docs,
    build_and_save_index Hosts.encode_all Hosts.lore_dict = Ok (ix, md) /\
    length (xb ix) = length (documents md) /\
    search_and_rank (init Hosts.built_env) Sample.who_query "lore" = Ok docs /\
    length docs = 2.
Proof.
  destruct (build_then_search Hosts.encode_all Hosts.lore_dict
              Hosts.built_env "lore" Sample.who_query) as [_ Hbuilt].
  { intros docs. unfold Hosts.encode_all. by rewrite length_fmap. }
  destruct (Hbuilt _ _ eq_refl) as (_ & _ & Hlen & Hserve).
  destruct (Hserve lore_corpus eq_refl eq_refl) as (docs & Hs & Hn & _).
  eexists _, _, docs. split; [reflexivity |].
  split; [exact Hlen |]. split; [exact Hs | exact Hn].
Defined.

End Build.

(** ** Fetching in batches *)

Section Batches.
Import DataCollection.

Lemma fetch_log (fetch : list string -> gmap string string)
    (all_titles : list string) (starts : list nat)
    (st : list (list string) * gmap string string) :
  (foldl (fetch_batch fetch all_titles) st starts).1
  = st.1 ++ ((fun i => py_slice all_titles i (i + BATCH_SIZE)) <$> starts).
Proof.
  revert st. induction starts as [|i starts IH]; intros st.
  - cbn. by rewrite app_nil_r.
  - cbn [foldl]. rewrite IH. cbn [fetch_batch fst].
    by rewrite fmap_cons, <- app_assoc.
Qed.

Lemma slices_concat {A : Type} (m : nat) (l : list A) :
  length l <= m * BATCH_SIZE ->
  concat ((fun j => take BATCH_SIZE (drop (j * BATCH_SIZE) l)) <$> seq 0 m) = l.
Proof.
  revert l. induction m as [|m IH]; intros l Hlen.
  - destruct l; [done | simpl in Hlen; lia].
  - cbn [seq]. rewrite fmap_cons, <- fmap_S_seq, <- list_fmap_compose.
    cbn [concat]. rewrite Nat.mul_0_l, drop_0.
    trans (take BATCH_SIZE l ++ drop BATCH_SIZE l); [| apply take_drop].
    f_equal.
    etrans; [| apply (IH (drop BATCH_SIZE l)); rewrite length_drop; lia].
    f_equal. apply list_fmap_ext. intros _ j _. unfold compose.
    rewrite drop_drop.
    by replace (BATCH_SIZE + j * BATCH_SIZE) with (S j * BATCH_SIZE) by lia.
Qed.

(** X14. The crawler asks for every title exactly once and in order:
    the batches it sends, put end to end, are the list of titles; no
    batch is empty, none has more than 50 titles, and there are
    [ceil(n / 50)] of them. *)
Theorem main_api_crawler_batches (all_titles : list string)
    (fetch : list string -> gmap string string) :
  let batches := (main_api_crawler all_titles fetch).1 in
  concat batches = all_titles /\
  Forall (fun b => 1 <= length b <= 50) batches /\
  length batches = (length all_titles + 49) / 50.
Proof.
  cbn zeta. unfold main_api_crawler. rewrite fetch_log. cbn [fst app].
  unfold py_range_step. rewrite <- list_fmap_compose.
  set (m := (length all_titles + BATCH_SIZE - 1) / BATCH_SIZE).
  assert (length all_titles <= m * BATCH_SIZE) as Hm.
  { unfold m, BATCH_SIZE.
    pose proof (Nat.div_mod_eq (length all_titles + 50 - 1) 50).
    pose proof (Nat.mod_upper_bound (length all_titles + 50 - 1) 50).
    lia. }
  assert ((m - 1) * BATCH_SIZE < length all_titles \/ m = 0) as Hlast.
  { unfold m, BATCH_SIZE.
    pose proof (Nat.div_mod_eq (length all_titles + 50 - 1) 50).
    pose proof (Nat.mod_upper_bound (length all_titles + 50 - 1) 50).
    lia. }
  split; [| split].
  - etrans; [| apply (slices_concat m all_titles Hm)]. f_equal.
    apply list_fmap_ext. intros _ j _. unfold compose, py_slice.
    f_equal. lia.
  - apply Forall_fmap, Forall_forall. intros j Hj.
    apply elem_of_seq in Hj. unfold compose, py_slice.
    rewrite length_take, length_drop.
    assert (j * BATCH_SIZE <= (m - 1) * BATCH_SIZE) by nia.
    unfold BATCH_SIZE in *. lia.
  - rewrite length_fmap, length_seq. unfold m, BATCH_SIZE.
    f_equal. lia.
Qed.

End Batches.

(** ** The type of a document *)

Section DocumentType.
Import PyStr PyStrFacts Embeddings.

Lemma lower_ascii_idem (c : ascii) : lower_ascii (lower_ascii c) = lower_ascii c.
Proof. destruct c as [[] [] [] [] [] [] [] []]; reflexivity. Qed.

Lemma lower_idem (s : string) : lower (lower s) = lower s.
Proof.
  induction s as [|c s IH]; [done |].
  cbn [lower]. by rewrite lower_ascii_idem, IH.
Qed.

Lemma occurs_in_trans (a b c : string) :
  occurs_in a b -> occurs_in b c -> occurs_in a c.
Proof.
  intros (x & y & ->) (u & v & ->). exists (u +:+ x), (y +:+ v).
  by rewrite !str_app_assoc.
Qed.

Lemma occurs_in_lower_both (w t : string) :
  occurs_in w t -> occurs_in (lower w) (lower t).
Proof.
  intros (a & b & ->). exists (lower a), (lower b). by rewrite !lower_app.
Qed.

Lemma word_search_contains (prev : bool) (kw t : string) :
  word_search prev kw t = true -> contains kw t = true.
Proof.
  revert prev. induction t as [|c t IH]; intros prev; cbn [word_search contains].
  - rewrite orb_false_r. intros H.
    apply andb_true_iff in H as [H _]. apply andb_true_iff in H as [H _].
    by rewrite H.
  - intros H. apply orb_true_iff in H as [H | H].
    + apply andb_true_iff in H as [H _]. apply andb_true_iff in H as [H _].
      by rewrite H.
    + rewrite (IH _ H). by rewrite orb_true_r.
Qed.

Lemma take_nonspace_prefix (s : string) :
  exists r, s = take_nonspace s +:+ r.
Proof.
  induction s as [|c s [r IH]]; [by exists "" |]. cbn [take_nonspace].
  destruct (is_space c); [by eexists |].
  exists r. rewrite app_cons. by rewrite <- IH.
Qed.

Lemma str_drop_suffix (n : nat) (s : string) :
  exists a, s = a +:+ str_drop n s.
Proof.
  revert s. induction n as [|n IH]; intros s; [by exists "" |].
  destruct s as [|c s]; [by exists "" |]. cbn [str_drop].
  destruct (IH s) as [a Ha]. exists (String c a).
  rewrite app_cons. by rewrite <- Ha.
Qed.

(** The match that starts at the head of the text, if there is one. *)
Lemma find_category_cons (c : ascii) (t : string) :
  find_category (String c t)
  = match (if startswith "category:" (String c t)
           then match take_nonspace (str_drop 9 (String c t)) with
                | EmptyString => None
                | String c0 r => Some (String c0 r)
                end
           else None) with
    | Some tag => Some tag
    | None => find_category t
    end.
Proof. reflexivity. Qed.

Lemma find_category_occurs (t tag : string) :
  find_category t = Some tag -> occurs_in tag t.
Proof.
  induction t as [|c t IH]; [intros H; by vm_compute in H |].
  rewrite find_category_cons.
  destruct (startswith "category:" (String c t)).
  - destruct (take_nonspace (str_drop 9 (String c t))) as [|c0 r] eqn:Ht.
    + intros H. destruct (IH H) as (a & b & ->). by exists (String c a), b.
    + intros H. injection H as <-. rewrite <- Ht.
      destruct (str_drop_suffix 9 (String c t)) as [a Ha].
      destruct (take_nonspace_prefix (str_drop 9 (String c t))) as [b Hb].
      exists a, b. by rewrite <- Hb.
  - intros H. destruct (IH H) as (a & b & ->). by exists (String c a), b.
Qed.

Lemma str_concat_cons (x : string) (l : list string) :
  str_concat (x :: l) = x +:+ str_concat l.
Proof. done. Qed.


Lemma text_of_lower (v : Value) : lower (text_of v) = text_of v.
Proof. destruct v; cbn [text_of]; by rewrite ?lower_app, ?lower_idem. Qed.

Lemma full_text_lower (data : list (string * Value)) :
  lower (full_text data) = full_text data.
Proof.
  unfold full_text. induction data as [|kv data IH]; [done |].
  rewrite fmap_cons, str_concat_cons, lower_app. by rewrite text_of_lower, IH.
Qed.

Lemma keyword_hits_occurs (data : list (string * Value)) (kw : string) :
  keyword_hits (full_text data)
    (match find_category (full_text data) with
     | Some tag => lower tag
     | None => ""
     end) kw = true ->
  occurs_in kw (full_text data).
Proof.
  unfold keyword_hits. intros H. apply orb_true_iff in H as [H | H].
  - apply word_search_contains in H. by apply contains_occurs.
  - apply contains_occurs in H.
    destruct (find_category (full_text data)) as [tag|] eqn:Htag.
    + eapply occurs_in_trans; [exact H |].
      rewrite <- (full_text_lower data).
      by apply occurs_in_lower_both, find_category_occurs.
    + destruct H as (a & b & Hab).
      destruct a as [|c a]; [| by rewrite app_cons in Hab].
      rewrite app_nil in Hab.
      destruct kw as [|c kw]; [| by rewrite app_cons in Hab].
      by exists "", (full_text data).
Qed.

Lemma get_document_type_tag (article_data : list (string * Value)) :
  In (get_document_type article_data)
    ["character"; "location"; "concept"; "organization"].
Proof.
  unfold get_document_type.
  destruct (List.find _ CLASSIFICATION_RULES) as [rule|] eqn:Hfind.
  - apply find_some in Hfind as [Hin _].
    unfold CLASSIFICATION_RULES in Hin. cbn [In] in Hin.
    destruct Hin as [<- | [<- | [<- | [<- | []]]]]; cbn; tauto.
  - cbn; tauto.
Qed.

(** X15. [get_document_type] always answers one of the four type tags,
    and it answers "concept" for an article in whose lowercased text
    none of the keywords of the rules occurs, even as part of a word;
    an article without any text is a "concept". *)
Theorem get_document_type_range (article_data : list (string * Value)) :
  In (get_document_type article_data)
    ["character"; "location"; "concept"; "organization"] /\
  ((forall rule kw, In rule CLASSIFICATION_RULES -> In kw (rule.2) ->
                    ~ occurs_in kw (full_text article_data)) ->
   get_document_type article_data = "concept") /\
  get_document_type [] = "concept".
Proof.
  split; [| split; [| done]].
  - apply get_document_type_tag.
  - intros Hnone. unfold get_document_type.
    destruct (List.find _ CLASSIFICATION_RULES) as [rule|] eqn:Hfind; [| done].
    apply find_some in Hfind as [Hin Hhit].
    apply existsb_exists in Hhit as (kw & Hkw & Hhit).
    apply keyword_hits_occurs in Hhit. by destruct (Hnone rule kw Hin Hkw).
Qed.

Lemma get_document_type_range_witness :
  get_document_type
    [("title", VStr "Arasaka"); ("overview", VStr "Braindance, 2077")]
  = "concept".
Proof.
  refine (proj1 (proj2 (get_document_type_range
                          [("title", VStr "Arasaka");
                           ("overview", VStr "Braindance, 2077")])) _).
  intros rule kw Hrule Hkw Hocc. apply contains_occurs in Hocc.
  unfold CLASSIFICATION_RULES in Hrule. cbn [In] in Hrule.
  destruct Hrule as [<- | [<- | [<- | [<- | []]]]];
    cbn [snd In] in Hkw;
    repeat (destruct Hkw as [<- | Hkw]; [vm_compute in Hocc; discriminate |]);
    destruct Hkw.
Defined.

Lemma last_char_some (c : ascii) (s : string) :
  exists d, last_char (String c s) = Some d.
Proof.
  revert c. induction s as [|a s IH]; intros c; [by exists c |].
  destruct (IH a) as [d Hd]. exists d. exact Hd.
Qed.

Lemma last_char_cons (c : ascii) (s : string) :
  last_char (String c s) = match last_char s with
                           | Some d => Some d
                           | None => Some c
                           end.
Proof.
  destruct s as [|a s]; [done |].
  destruct (last_char_some a s) as [d Hd].
  change (last_char (String c (String a s))) with (last_char (String a s)).
  by rewrite Hd.
Qed.

Lemma last_char_app (a b : string) :
  last_char (a +:+ b) = match last_char b with
                        | Some c => Some c
                        | None => last_char a
                        end.
Proof.
  induction a as [|c a IH].
  - rewrite app_nil. by destruct (last_char b).
  - rewrite app_cons, !last_char_cons, IH.
    by destruct (last_char b), (last_char a).
Qed.










Lemma document_type_map_lookup
    (corpus : list (string * list (string * Value))) (t ty : string) :
  document_type_map corpus !! t = Some ty ->
  exists data, (t, data) ∈ corpus /\ data <> [] /\
               ty = get_document_type data.
Proof.
  unfold document_type_map.
  induction corpus as [|[t' data] corpus IH] using rev_ind;
    [cbn [foldl]; by rewrite lookup_empty |].
  rewrite foldl_snoc. cbn [fst snd]. intros H.
  assert (forall d, (t, d) ∈ corpus -> (t, d) ∈ corpus ++ [(t', data)]) as Hmono.
  { intros d Hd. apply elem_of_app. by left. }
  destruct data as [|kv data].
  - destruct (IH H) as (d & Hd & Hne & Hty). exists d. by split; [apply Hmono |].
  - destruct (decide (t' = t)) as [-> | Hne].
    + rewrite lookup_insert_eq in H. injection H as <-.
      exists (kv :: data). split; [| done].
      apply elem_of_app. right. by apply list_elem_of_singleton.
    + rewrite lookup_insert_ne in H by done.
      destruct (IH H) as (d & Hd & Hne' & Hty). exists d.
      by split; [apply Hmono |].
Qed.

(** X17. Every type the bot holds came out of [get_document_type]:
    when the type file is the map the script writes for a corpus, the
    type the bot has for a title is one of the four tags and is the
    type of a non-empty article of the corpus under that title. *)
Theorem type_map_tags (env : Env)
    (corpus : list (string * list (string * Value))) (t ty : string) :
  load_type_map env = Some (document_type_map corpus) ->
  type_map (init env) !! t = Some ty ->
  In ty ["character"; "location"; "concept"; "organization"] /\
  exists data, (t, data) ∈ corpus /\ data <> [] /\
               ty = get_document_type data.
Proof.
  intros Hfile. unfold init. cbn [type_map]. rewrite Hfile. cbn [default].
  intros H. destruct (document_type_map_lookup _ _ _ H) as (d & Hd & Hne & ->).
  split; [apply get_document_type_tag |]. by exists d.
Qed.

Lemma type_map_tags_witness :
  type_map (init Hosts.type_env) !! "johnny silverhand" = Some "character" /\
  In "character" ["character"; "location"; "concept"; "organization"] /\
  type_map (init Hosts.type_env) !! "stub" = None.
Proof.
  assert (type_map (init Hosts.type_env) !! "johnny silverhand"
          = Some "character") as Hty by reflexivity.
  split; [exact Hty |]. split; [| reflexivity].
  exact (proj1 (type_map_tags Hosts.type_env Hosts.wiki
                  "johnny silverhand" "character" eq_refl Hty)).
Defined.

Lemma foldl_add_part_grows (data : list (string * Value))
    (doc_parts : list string) :
  exists more, foldl add_part doc_parts data = doc_parts ++ more.
Proof.
  revert doc_parts. induction data as [|kv data IH]; intros doc_parts.
  - exists []. by rewrite app_nil_r.
  - cbn [foldl]. destruct (IH (add_part doc_parts kv)) as [more ->].
    unfold add_part.
    destruct (bool_decide (kv.1 = "title") || bool_decide (kv.1 ∈ KEYS_TO_SKIP));
      [by exists more |].
    destruct (strip (field_text kv.2)); [by exists more |].
    eexists. by rewrite <- app_assoc.
Qed.

Lemma foldl_add_part_filter (data : list (string * Value))
    (doc_parts : list string) :
  foldl add_part doc_parts (List.filter says_something data)
  = foldl add_part doc_parts data.
Proof.
  revert doc_parts. induction data as [|kv data IH]; intros doc_parts; [done |].
  cbn [List.filter foldl]. destruct (says_something kv) eqn:Hkv.
  - cbn [foldl]. apply IH.
  - rewrite IH. f_equal. unfold says_something in Hkv. unfold add_part.
    apply orb_false_iff in Hkv as [Ht Hrest]. rewrite Ht. cbn [orb].
    apply andb_false_iff in Hrest as [Hs | Hb].
    + apply negb_false_iff in Hs. by rewrite Hs.
    + apply negb_false_iff, bool_decide_eq_true_1 in Hb. rewrite Hb.
      by destruct (bool_decide (kv.1 ∈ KEYS_TO_SKIP)).
Qed.

Lemma dict_get_filter (data : list (string * Value)) :
  dict_get (List.filter says_something data) "title" = dict_get data "title".
Proof.
  induction data as [|[k v] data IH]; [done |].
  cbn [List.filter dict_get]. unfold says_something at 1. cbn [fst snd].
  destruct (decide (k = "title")) as [-> | Hne].
  - by rewrite !(bool_decide_eq_true_2 ("title" = "title")) by done.
  - rewrite !(bool_decide_eq_false_2 (k = "title")) by done. cbn [orb].
    destruct (negb _ && negb _); [| done].
    cbn [dict_get]. by rewrite (bool_decide_eq_false_2 (k = "title")) by done.
Qed.

Lemma str_join_prefix (sep x : string) (l : list string) :
  str_prefix x (str_join sep (x :: l)).
Proof.
  destruct l as [|y l]; cbn [str_join].
  - exists "". by rewrite str_app_nil_r.
  - by eexists.
Qed.

(** X18. The summary made for an article always ends with a full stop;
    when the title is a true value the summary starts with "title: "
    and the title, and an article without a title key is titled
    "Unknown Title"; and nothing of the skipped key [template_type] or
    of a blank value reaches it: the document is the one made from the
    article without these items. *)
Theorem create_document_summary (repr_list : list string -> string)
    (article_data : list (string * Value)) :
  let doc := create_document_for_embedding repr_list article_data in
  last_char (doc_summary doc) = Some "."%char /\
  (truthy_value (doc_title doc) = true ->
   str_prefix ("title: " +:+ format_value repr_list (doc_title doc))
     (doc_summary doc)) /\
  (dict_get article_data "title" = None ->
   doc_title doc = VStr "Unknown Title") /\
  create_document_for_embedding repr_list
    (List.filter says_something article_data) = doc.
Proof.
  cbn zeta. unfold create_document_for_embedding.
  cbn [doc_summary doc_title]. split; [| split; [| split]].
  - by rewrite last_char_app.
  - intros Ht. rewrite Ht.
    destruct (foldl_add_part_grows article_data
                ["title: " +:+
                 format_value repr_list
                   (default (VStr "Unknown Title")
                      (dict_get article_data "title"))]) as [more ->].
    cbn [app]. by apply str_prefix_app, str_join_prefix.
  - by intros ->.
  - by rewrite dict_get_filter, foldl_add_part_filter.
Qed.

Lemma create_document_summary_witness :
  create_document_for_embedding (fun _ => "")
    [ ("title", VStr "johnny silverhand");
      ("template_type", VStr "infobox character");
      ("overview", VStr "a rockerboy and a legend of night city");
      ("notes", VStr "   ") ]
  = {| doc_title := VStr "johnny silverhand";
       doc_summary :=
         "title: johnny silverhand. " +:+
         "overview: a rockerboy and a legend of night city." |} /\
  doc_title (create_document_for_embedding (fun _ => "")
               [("overview", VStr "a rockerboy")])
  = VStr "Unknown Title" /\
  str_prefix "title: johnny silverhand"
    (doc_summary
       (create_document_for_embedding (fun _ => "")
          [ ("title", VStr "johnny silverhand");
            ("overview", VStr "a rockerboy") ])).
Proof.
  split; [reflexivity |]. split.
  - exact (proj1 (proj2 (proj2 (create_document_summary (fun _ => "")
                                  [("overview", VStr "a rockerboy")])))
             eq_refl).
  - exact (proj1 (proj2 (create_document_summary (fun _ => "")
                           [ ("title", VStr "johnny silverhand");
                             ("overview", VStr "a rockerboy") ]))
             eq_refl).
Defined.

End DocumentType.

(** ** Entities of the query and of the documents *)

Section QueryEntities.
Import PyStr Embeddings.




End QueryEntities.

(** ** No record twice, and corpora one by one *)

Section Distinct.

Lemma scored_positions (ix : IndexFlatL2) (q : Vec) :
  (scored ix q).*2 = Z.of_nat <$> seq 0 (length (xb ix)).
Proof.
  unfold scored. rewrite fmap_imap.
  rewrite (imap_ext _ (fun i _ => Z.of_nat i)) by done.
  apply imap_seq_0.
Qed.

Lemma NoDup_firstn {A : Type} (n : nat) (l : list A) :
  NoDup l -> NoDup (take n l).
Proof.
  intros H. rewrite <- (take_drop n l) in H.
  by apply NoDup_app in H as [? _].
Qed.

Lemma nearest_positions_NoDup (ix : IndexFlatL2) (q : Vec) (k : nat) :
  NoDup (nearest ix q k).*2.
Proof.
  unfold nearest. rewrite fmap_take. apply NoDup_firstn.
  rewrite (sort_by_perm fst (scored ix q)), scored_positions.
  apply NoDup_fmap_2_strong; [| apply NoDup_seq].
  intros i j _ _ Hij. lia.
Qed.

(** X20. No record is returned twice: the documents [search_and_rank]
    returns for an available corpus are built, in order, from the four
    nearest slots of the search, whose positions are pairwise distinct;
    so when the stored records are pairwise distinct, the returned
    ones are too. *)
Theorem search_and_rank_distinct (self : CyberpunkBot)
    (query index_name : string) (ix : IndexFlatL2) (store : Metadata) :
  available self index_name ix store ->
  exists docs,
    search_and_rank self query index_name = Ok docs /\
    Forall2 (built_from store)
      (take 4 (nearest ix (model self query) TOP_K_RETRIEVAL)) docs /\
    NoDup (take 4 (nearest ix (model self query) TOP_K_RETRIEVAL)).*2 /\
    (NoDup (documents store) -> NoDup (record_of <$> docs)).
Proof.
  intros Hav.
  destruct (candidates_available self query index_name ix store Hav)
    as (cands & Hc & _ & Hall).
  pose proof (search_and_rank_take _ _ _ _ Hc) as Hs.
  pose proof (nearest_in_range ix (model self query) TOP_K_RETRIEVAL) as Hrange.
  pose proof (nearest_positions_NoDup ix (model self query) TOP_K_RETRIEVAL)
    as Hnd.
  set (found := nearest ix (model self query) TOP_K_RETRIEVAL) in *.
  assert (NoDup (take 4 found).*2) as Hnd4.
  { rewrite fmap_take. by apply NoDup_firstn. }
  assert (Forall2 (built_from store) (take 4 found) (take 4 cands)) as Hall4
    by by apply Forall2_take.
  exists (take 4 cands). split; [done |]. split; [done |]. split; [done |].
  intros Hrec. apply NoDup_alt. intros i j r Hi Hj.
  rewrite list_lookup_fmap in Hi, Hj.
  destruct (take 4 cands !! i) as [di|] eqn:Hdi; [| done].
  destruct (take 4 cands !! j) as [dj|] eqn:Hdj; [| done].
  injection Hi as Hi. injection Hj as Hj.
  destruct (Forall2_lookup_r _ _ _ _ _ Hall4 Hdi) as (si & Hsi & _ & Hsti).
  destruct (Forall2_lookup_r _ _ _ _ _ Hall4 Hdj) as (sj & Hsj & _ & Hstj).
  unfold stored in *. rewrite Hi in Hsti. rewrite Hj in Hstj.
  pose proof (proj1 (NoDup_alt _) Hrec _ _ _ Hsti Hstj) as Hpos.
  assert (in_range (length (xb ix)) si /\ in_range (length (xb ix)) sj)
    as [[Hi0 _] [Hj0 _]].
  { rewrite Forall_forall in Hrange.
    split; apply Hrange; eapply subseteq_take, list_elem_of_lookup_2; eauto. }
  assert (si.2 = sj.2) as Heq by lia.
  apply (proj1 (NoDup_alt _) Hnd4 i j (si.2));
    rewrite list_lookup_fmap; [by rewrite Hsi | by rewrite Hsj, Heq].
Qed.

Lemma search_and_rank_distinct_witness :
  exists docs,
    search_and_rank (init Sample.env) Sample.who_query "lore" = Ok docs /\
    NoDup (record_of <$> docs).
Proof.
  destruct (search_and_rank_distinct (init Sample.env) Sample.who_query "lore"
              Sample.lore_index Sample.lore_metadata)
    as (docs & Hs & _ & _ & Hnd).
  { repeat split; reflexivity. }
  exists docs. split; [exact Hs |]. apply Hnd.
  apply NoDup_cons. split; [| apply NoDup_singleton].
  intros H. apply list_elem_of_singleton in H. discriminate.
Defined.

(** X21. The corpora are loaded one by one: what the bot holds for a
    corpus depends on the files of that corpus alone, so a corpus that
    cannot be read takes no other with it; and no corpus but lore,
    timeline and slang is ever loaded. *)
Theorem init_corpus_independent (env1 env2 : Env) (name : string) :
  (read_index env1 name = read_index env2 name ->
   load_metadata env1 name = load_metadata env2 name ->
   indexes (init env1) !! name = indexes (init env2) !! name /\
   metadata (init env1) !! name = metadata (init env2) !! name) /\
  (name ∉ corpus_names ->
   indexes (init env1) !! name = None /\ metadata (init env1) !! name = None).
Proof.
  rewrite !init_indexes, !init_metadata. split.
  - by intros -> ->.
  - intros Hname. by rewrite !decide_False by done.
Qed.

Lemma init_corpus_independent_witness :
  (indexes (init Hosts.no_timeline_env) !! "lore"
   = indexes (init Sample.env) !! "lore" /\
   metadata (init Hosts.no_timeline_env) !! "lore"
   = metadata (init Sample.env) !! "lore") /\
  indexes (init Hosts.no_timeline_env) !! "timeline" = None /\
  indexes (init Sample.env) !! "wiki" = None.
Proof.
  split; [| split].
  - exact (proj1 (init_corpus_independent Hosts.no_timeline_env Sample.env
                    "lore") eq_refl eq_refl).
  - reflexivity.
  - refine (proj1 (proj2 (init_corpus_independent Sample.env Sample.env "wiki") _)).
    unfold corpus_names. intros H.
    repeat (apply elem_of_cons in H as [H | H]; [discriminate |]).
    by apply elem_of_nil in H.
Defined.

End Distinct.
